(** * The Composer completion spec ([src/composer.ts]), embedded in Rocq

    The source is a TypeScript module that builds a shell-completion tree
    for [composer] out of the JSON printed by [composer list --format=json].
    The values it handles are whatever [JSON.parse] returns, so the
    embedding is dynamically typed: a [value] type for JavaScript values,
    property access and calls that may throw, and the source functions
    written over them in an error monad. *)

From Stdlib Require Import Ascii String List Arith NArith Bool Floats Lia.
From Stdlib Require Import DecimalString.
Import ListNotations.
Open Scope string_scope.
Open Scope list_scope.

Set Implicit Arguments.
Set Warnings "-register-all".

(** ** Strings

    A JavaScript string is a sequence of UTF-16 code units. *)

Definition code_unit := N.
Definition jsstring := list code_unit.

(** [str] turns an ASCII literal into a JavaScript string. *)
Definition str (s : string) : jsstring :=
  map N_of_ascii (list_ascii_of_string s).

Fixpoint jsstring_eqb (a b : jsstring) : bool :=
  match a, b with
  | [], [] => true
  | x :: a', y :: b' => N.eqb x y && jsstring_eqb a' b'
  | _, _ => false
  end.

(** [String.prototype.endsWith(searchString)]. *)
Definition endsWith (s suffix : jsstring) : bool :=
  Nat.leb (length suffix) (length s)
  && jsstring_eqb (skipn (length s - length suffix) s) suffix.

(** The four LineTerminator code points of ECMAScript. *)
Definition isLineTerminator (c : code_unit) : bool :=
  (N.eqb c 10 || N.eqb c 13 || N.eqb c 8232 || N.eqb c 8233)%N.

(** WhiteSpace of ECMAScript: TAB, VT, FF, ZWNBSP and the Unicode
    space separators. *)
Definition isWhiteSpace (c : code_unit) : bool :=
  (N.eqb c 9 || N.eqb c 11 || N.eqb c 12 || N.eqb c 32 || N.eqb c 160
   || N.eqb c 5760 || (N.leb 8192 c && N.leb c 8202) || N.eqb c 8239
   || N.eqb c 8287 || N.eqb c 12288 || N.eqb c 65279)%N.

Definition isTrimmed (c : code_unit) : bool :=
  isWhiteSpace c || isLineTerminator c.

Fixpoint trimStart (s : jsstring) : jsstring :=
  match s with
  | [] => []
  | c :: rest => if isTrimmed c then trimStart rest else s
  end.

Definition trimEnd (s : jsstring) : jsstring := rev (trimStart (rev s)).

(** [String.prototype.trim()]. *)
Definition trim (s : jsstring) : jsstring := trimEnd (trimStart s).

(** The string iterator yields code points: a high surrogate followed by a
    low surrogate is one element, any other code unit is one element. *)
Definition isHighSurrogate (c : code_unit) : bool :=
  (N.leb 55296 c && N.leb c 56319)%N.
Definition isLowSurrogate (c : code_unit) : bool :=
  (N.leb 56320 c && N.leb c 57343)%N.

Fixpoint codePoints (s : jsstring) : list jsstring :=
  match s with
  | [] => []
  | c :: rest =>
      match rest with
      | d :: rest' =>
          if isHighSurrogate c && isLowSurrogate d
          then [c; d] :: codePoints rest'
          else [c] :: codePoints rest
      | [] => [[c]]
      end
  end.

(** ** Regular expressions

    The fragment of the RegExp language that [PACKAGE_REGEXP] uses, matched
    with Brzozowski derivatives.  [Dot] is [.] without the [s] flag: any
    code unit that is not a line terminator. *)

Inductive regex : Type :=
| Void
| Eps
| Chr (c : code_unit)
| Dot
| Alt (r1 r2 : regex)
| Seq (r1 r2 : regex)
| Star (r : regex).

Fixpoint nullable (r : regex) : bool :=
  match r with
  | Void => false
  | Eps => true
  | Chr _ => false
  | Dot => false
  | Alt r1 r2 => nullable r1 || nullable r2
  | Seq r1 r2 => nullable r1 && nullable r2
  | Star _ => true
  end.

Fixpoint deriv (c : code_unit) (r : regex) : regex :=
  match r with
  | Void => Void
  | Eps => Void
  | Chr d => if N.eqb c d then Eps else Void
  | Dot => if isLineTerminator c then Void else Eps
  | Alt r1 r2 => Alt (deriv c r1) (deriv c r2)
  | Seq r1 r2 =>
      if nullable r1
      then Alt (Seq (deriv c r1) r2) (deriv c r2)
      else Seq (deriv c r1) r2
  | Star r1 => Seq (deriv c r1) (Star r1)
  end.

(** [wholeMatch r s]: the pattern [^r$] (no [m] flag) matches in [s], that
    is, [r] matches all of [s]. *)
Fixpoint wholeMatch (r : regex) (s : jsstring) : bool :=
  match s with
  | [] => nullable r
  | c :: rest => wholeMatch (deriv c r) rest
  end.

(** The language of a regular expression, as a relation. *)
Inductive Matches : regex -> jsstring -> Prop :=
| MEps : Matches Eps []
| MChr c : Matches (Chr c) [c]
| MDot c : isLineTerminator c = false -> Matches Dot [c]
| MAltL r1 r2 s : Matches r1 s -> Matches (Alt r1 r2) s
| MAltR r1 r2 s : Matches r2 s -> Matches (Alt r1 r2) s
| MSeq r1 r2 s1 s2 :
    Matches r1 s1 -> Matches r2 s2 -> Matches (Seq r1 r2) (s1 ++ s2)
| MStarNil r : Matches (Star r) []
| MStarCons r s1 s2 :
    Matches r s1 -> Matches (Star r) s2 -> Matches (Star r) (s1 ++ s2).

(** ** JavaScript values *)

Inductive value : Type :=
| VUndefined
| VNull
| VBool (b : bool)
| VNumber (n : float)
| VString (s : jsstring)
| VArray (elems : list value)
| VObject (props : list (jsstring * value)).

Inductive exn : Type :=
| SyntaxError
| TypeError
| HostError.

Inductive Result (A : Type) : Type :=
| Ok (a : A)
| Throw (e : exn).
Arguments Throw {A} e.

Definition bind {A B} (m : Result A) (k : A -> Result B) : Result B :=
  match m with
  | Ok a => k a
  | Throw e => Throw e
  end.

Declare Scope js_scope.
Delimit Scope js_scope with js.
Notation "x <- m ;; k" := (bind m (fun x => k))
  (at level 61, m at next level, right associativity) : js_scope.
Open Scope js_scope.

Fixpoint mapM {A B} (f : A -> Result B) (l : list A) : Result (list B) :=
  match l with
  | [] => Ok []
  | x :: rest =>
      y <- f x ;;
      ys <- mapM f rest ;;
      Ok (y :: ys)
  end.

(** [ToBoolean]. *)
Definition ToBoolean (v : value) : bool :=
  match v with
  | VUndefined | VNull => false
  | VBool b => b
  | VNumber n => negb (PrimFloat.eqb n 0 || PrimFloat.is_nan n)
  | VString s => negb (Nat.eqb (length s) 0)
  | VArray _ | VObject _ => true
  end.

(** The canonical string of an array index. *)
Definition indexKey (i : nat) : jsstring :=
  str (NilEmpty.string_of_uint (Nat.to_uint i)).

Definition indexed (l : list value) : list (jsstring * value) :=
  combine (map indexKey (seq 0 (length l))) l.

(** The own enumerable string-keyed properties of a value, in the order
    of [[OwnPropertyKeys]].  An object [VObject props] lists its properties
    in that order, with distinct keys, which is how [JSON.parse] builds
    objects; an array or a string has its indices. *)
Definition ownProperties (v : value) : list (jsstring * value) :=
  match v with
  | VObject props => props
  | VArray elems => indexed elems
  | VString s => indexed (map (fun c => VString [c]) s)
  | _ => []
  end.

Fixpoint lookup (k : jsstring) (props : list (jsstring * value))
  : option value :=
  match props with
  | [] => None
  | (k', v) :: rest => if jsstring_eqb k k' then Some v else lookup k rest
  end.

(** [Object.keys(v)]. *)
Definition Object_keys (v : value) : Result (list jsstring) :=
  match v with
  | VUndefined | VNull => Throw TypeError
  | _ => Ok (map fst (ownProperties v))
  end.

(** Property read [v[k]] (or [v.k]).  The program reads only own
    enumerable keys and the names of the catalog's fields, none of which a
    prototype of a JSON value defines, so a key that is not an own
    property reads as [undefined]. *)
Definition get (v : value) (k : jsstring) : Result value :=
  match v with
  | VUndefined | VNull => Throw TypeError
  | _ =>
      Ok (match lookup k (ownProperties v) with
          | Some x => x
          | None => VUndefined
          end)
  end.

(** [v === s] for a string literal [s]. *)
Definition strictEqualsString (v : value) (s : jsstring) : bool :=
  match v with
  | VString t => jsstring_eqb t s
  | _ => false
  end.

(** [Array.isArray(v)]. *)
Definition Array_isArray (v : value) : bool :=
  match v with
  | VArray _ => true
  | _ => false
  end.

(** [v.trim()]: only a string has a callable [trim]. *)
Definition callTrim (v : value) : Result jsstring :=
  match v with
  | VString s => Ok (trim s)
  | _ => Throw TypeError
  end.

(** The iteration of [for (const x of v)]: arrays and strings are the
    iterable JSON values. *)
Definition iterate (v : value) : Result (list value) :=
  match v with
  | VArray elems => Ok elems
  | VString s => Ok (map VString (codePoints s))
  | _ => Throw TypeError
  end.

(** ** The completion tree ([Fig.Spec], [Fig.Subcommand], [Fig.Arg],
    [Fig.Option])

    The properties that the module sets.  A data property has a [value];
    a property that an object literal leaves out is [VUndefined]. *)

Inductive Generator : Type :=
| searchGenerator
| packagesGenerator.

(** [Fig.SingleOrArray<T>]. *)
Inductive SingleOrArray (A : Type) : Type :=
| Single (a : A)
| Multiple (l : list A).

Module Fig.

Module Suggestion.
Record t : Type := mk
  { name : value;
    description : value;
    icon : value }.
End Suggestion.

Module Arg.
Record t : Type := mk
  { name : value;
    description : value;
    isOptional : value;
    default : value;
    isVariadic : value;
    generators : option (SingleOrArray Generator);
    template : value }.

(** The object literal [{}]. *)
Definition empty : t :=
  mk VUndefined VUndefined VUndefined VUndefined VUndefined None
     VUndefined.
End Arg.

Module Option.
Record t : Type := mk
  { name : value;
    description : value;
    isRequired : value;
    args : option Arg.t;
    exclusiveOn : value;
    isDangerous : value }.
End Option.

Module Subcommand.
Record t : Type := mk
  { name : value;
    description : value;
    icon : value;
    args : SingleOrArray Arg.t;
    options : list Option.t }.
End Subcommand.

Module Spec.
Record t : Type := mk
  { name : value;
    subcommands : list Subcommand.t }.
End Spec.

End Fig.

Definition composerIcon : jsstring :=
  str "https://getcomposer.org/img/logo-composer-transparent5.png".

(** The icon of a suggestion, U+1F4E6, as its surrogate pair. *)
Definition packageIcon : jsstring := [55357%N; 56550%N].

(** String and string-array literals of the source. *)
Definition lit (s : string) : value := VString (str s).
Definition lits (l : list string) : value := VArray (map lit l).

(** ** [PACKAGE_REGEXP] and [filterRealDependencies] *)

(** [new RegExp("^.*/.*$")]: the anchors are those of [wholeMatch]. *)
Definition slash : code_unit := 47%N.
Definition PACKAGE_REGEXP : regex := Seq (Star Dot) (Seq (Chr slash) (Star Dot)).

(** [Object.keys(dependencies).filter((dependency) =>
      dependency.match(PACKAGE_REGEXP))]: [match] returns an array when the
    pattern matches and [null] when it does not. *)
Definition filterRealDependencies (dependencies : value)
  : Result (list jsstring) :=
  keys <- Object_keys dependencies ;;
  Ok (filter (fun dependency => wholeMatch PACKAGE_REGEXP dependency) keys).

(** ** [searchGenerator] *)

(** [context[context.length - 1]]; [None] is [undefined]. *)
Definition lastToken (context : list jsstring) : option jsstring :=
  nth_error context (length context - 1).

(** The interpolation [${searchTerm}]. *)
Definition interpolate (searchTerm : option jsstring) : jsstring :=
  match searchTerm with
  | Some s => s
  | None => str "undefined"
  end.

(** The double quote character. *)
Definition quote : jsstring := [34%N].

Definition searchGenerator_script (context : list jsstring) : jsstring :=
  match lastToken context with
  | Some [] => []
  | searchTerm =>
      str "curl -s -H " ++ quote ++ str "Accept: application/json" ++ quote
      ++ str " " ++ quote ++ str "https://packagist.org/search.json?q="
      ++ interpolate searchTerm ++ str "&per_page=20" ++ quote
  end.

(** [packagesGenerator.script]. *)
Definition packagesGenerator_script : jsstring := str "cat composer.json".

(** [results.map(f)]: only an array has a callable [map]. *)
Definition callMap {B} (v : value) (f : value -> Result B)
  : Result (list B) :=
  match v with
  | VArray elems => mapM f elems
  | _ => Throw TypeError
  end.

(** The arrow function of [searchGenerator.postProcess]. *)
Definition searchSuggestion (item : value) : Result Fig.Suggestion.t :=
  name <- get item (str "name") ;;
  description <- get item (str "description") ;;
  Ok (Fig.Suggestion.mk name description (VString packageIcon)).

(** ** The catalog transformation of [generateSpec] *)

Definition packagesGeneratorTriggersCommands : list jsstring :=
  [str "update"; str "remove"].

(** [array.includes(v)] for an array of string literals. *)
Definition includes (array : list jsstring) (v : value) : bool :=
  existsb (fun s => strictEqualsString v s) array.

(** The callback of [Object.keys(command.definition.arguments).map],
    from its second statement on: the Argument-Spec of the argument
    [arg] of [command]. *)
Definition argSpec (command arg : value) : Result Fig.Arg.t :=
  default <- get arg (str "default") ;;
  argDefault <-
    (if ToBoolean default
     then if Array_isArray default
          then get default (indexKey 0)
          else Ok default
     else Ok VUndefined) ;;
  name <- get arg (str "name") ;;
  description <- get arg (str "description") ;;
  is_required <- get arg (str "is_required") ;;
  is_array <- get arg (str "is_array") ;;
  commandName <- get command (str "name") ;;
  Ok {| Fig.Arg.name := name;
        Fig.Arg.description := description;
        Fig.Arg.isOptional := VBool (negb (ToBoolean is_required));
        Fig.Arg.default := argDefault;
        Fig.Arg.isVariadic := is_array;
        Fig.Arg.generators :=
          Some (if strictEqualsString commandName (str "require")
                then Single searchGenerator
                else if includes packagesGeneratorTriggersCommands commandName
                     then Single packagesGenerator
                     else Multiple []);
        Fig.Arg.template := VUndefined |}.

(** The whole callback: its first statement reads the argument. *)
Definition argOfKey (command : value) (argKey : jsstring)
  : Result Fig.Arg.t :=
  definition <- get command (str "definition") ;;
  arguments <- get definition (str "arguments") ;;
  arg <- get arguments argKey ;;
  argSpec command arg.

(** The callback of [Object.keys(command.definition.options).map],
    from its second statement on: the Option-Spec of [option]. *)
Definition optionSpec (option : value) : Result Fig.Option.t :=
  name <- get option (str "name") ;;
  shortCut <- get option (str "shortcut") ;;
  trimmed <- callTrim shortCut ;;
  let names :=
    if Nat.ltb 0 (length trimmed) then [name; shortCut] else [name] in
  description <- get option (str "description") ;;
  is_value_required <- get option (str "is_value_required") ;;
  accept_value <- get option (str "accept_value") ;;
  Ok {| Fig.Option.name := VArray names;
        Fig.Option.description := description;
        Fig.Option.isRequired := is_value_required;
        Fig.Option.args :=
          if ToBoolean accept_value then Some Fig.Arg.empty else None;
        Fig.Option.exclusiveOn := VUndefined;
        Fig.Option.isDangerous := VUndefined |}.

(** The whole callback: its first statement reads the option. *)
Definition optionOfKey (command : value) (optionKey : jsstring)
  : Result Fig.Option.t :=
  definition <- get command (str "definition") ;;
  options <- get definition (str "options") ;;
  option <- get options optionKey ;;
  optionSpec option.

(** The object literal that the loop body pushes for one [command]. *)
Definition subcommandOfCommand (command : value)
  : Result Fig.Subcommand.t :=
  name <- get command (str "name") ;;
  description <- get command (str "description") ;;
  definition <- get command (str "definition") ;;
  arguments <- get definition (str "arguments") ;;
  argKeys <- Object_keys arguments ;;
  args <- mapM (argOfKey command) argKeys ;;
  definition' <- get command (str "definition") ;;
  options <- get definition' (str "options") ;;
  optionKeys <- Object_keys options ;;
  options' <- mapM (optionOfKey command) optionKeys ;;
  Ok {| Fig.Subcommand.name := name;
        Fig.Subcommand.description := description;
        Fig.Subcommand.icon := VString composerIcon;
        Fig.Subcommand.args := Multiple args;
        Fig.Subcommand.options := options' |}.

(** An option literal that sets [name] and [description] only. *)
Definition flag (name description : value) : Fig.Option.t :=
  {| Fig.Option.name := name;
     Fig.Option.description := description;
     Fig.Option.isRequired := VUndefined;
     Fig.Option.args := None;
     Fig.Option.exclusiveOn := VUndefined;
     Fig.Option.isDangerous := VUndefined |}.

Definition recipesCommonOptions : list Fig.Option.t :=
  [ flag (lits ["-h"; "--help"]) (lit "Display this help message");
    flag (lits ["-q"; "--quiet"]) (lit "Do not output any message");
    flag (lits ["-V"; "--version"]) (lit "Display this application version");
    {| Fig.Option.name := lit "--ansi";
       Fig.Option.description := lit "Force ANSI output";
       Fig.Option.isRequired := VUndefined;
       Fig.Option.args := None;
       Fig.Option.exclusiveOn := lits ["--no-ansi"];
       Fig.Option.isDangerous := VUndefined |};
    {| Fig.Option.name := lit "--no-ansi";
       Fig.Option.description := lit "Disable ANSI output";
       Fig.Option.isRequired := VUndefined;
       Fig.Option.args := None;
       Fig.Option.exclusiveOn := lits ["--ansi"];
       Fig.Option.isDangerous := VUndefined |};
    flag (lits ["-n"; "--no-interaction"])
         (lit "Do not ask any interactive question");
    flag (lit "--profile")
         (lit "Display timing and memory usage information");
    flag (lit "--no-plugins") (lit "Whether to disable plugins");
    {| Fig.Option.name := lits ["-d"; "--working-dir"];
       Fig.Option.description :=
         lit "If specified, use the given directory as working directory";
       Fig.Option.isRequired := VUndefined;
       Fig.Option.args :=
         Some {| Fig.Arg.name := lit "dir";
                 Fig.Arg.description := VUndefined;
                 Fig.Arg.isOptional := VUndefined;
                 Fig.Arg.default := VUndefined;
                 Fig.Arg.isVariadic := VUndefined;
                 Fig.Arg.generators := None;
                 Fig.Arg.template := lit "folders" |};
       Fig.Option.exclusiveOn := VUndefined;
       Fig.Option.isDangerous := VUndefined |};
    flag (lit "--no-cache") (lit "Prevent use of the cache");
    flag (lits ["-v"; "--verbose"])
         (lit "Verbosity of messages: 1 for normal output");
    flag (lit "-vv")
         (lit "Verbosity of messages: 2 for more verbose output");
    flag (lit "-vvv") (lit "Verbosity of messages: 3 for debug") ].

(** The first subcommand pushed when [symfony.lock] exists. *)
Definition recipesSubcommand : Fig.Subcommand.t :=
  {| Fig.Subcommand.name := lits ["recipes"; "symfony:recipes"];
     Fig.Subcommand.description :=
       lit "Shows information about all available recipes";
     Fig.Subcommand.icon := VString composerIcon;
     Fig.Subcommand.args :=
       Single {| Fig.Arg.name := lit "package";
                 Fig.Arg.description :=
                   lit "Package to inspect, if not provided all packages are";
                 Fig.Arg.isOptional := VBool true;
                 Fig.Arg.default := VUndefined;
                 Fig.Arg.isVariadic := VBool false;
                 Fig.Arg.generators := None;
                 Fig.Arg.template := VUndefined |};
     Fig.Subcommand.options :=
       flag (lits ["-o"; "--outdated"])
            (lit "Show only recipes that are outdated")
       :: recipesCommonOptions |}.

(** The second subcommand pushed when [symfony.lock] exists. *)
Definition recipesInstallSubcommand : Fig.Subcommand.t :=
  {| Fig.Subcommand.name :=
       lits ["recipes:install"; "symfony:recipes:install";
             "symfony:sync-recipes"; "sync-recipes"; "fix-recipes"];
     Fig.Subcommand.description :=
       lit "Installs or reinstalls recipes for already installed packages";
     Fig.Subcommand.icon := VString composerIcon;
     Fig.Subcommand.args :=
       Single {| Fig.Arg.name := lit "packages";
                 Fig.Arg.description := lit "Recipes that should be installed";
                 Fig.Arg.isOptional := VUndefined;
                 Fig.Arg.default := VUndefined;
                 Fig.Arg.isVariadic := VBool true;
                 Fig.Arg.generators := None;
                 Fig.Arg.template := VUndefined |};
     Fig.Subcommand.options :=
       {| Fig.Option.name := lit "--force";
          Fig.Option.description :=
            lit "Overwrite existing files when a new version of a recipe is available";
          Fig.Option.isRequired := VUndefined;
          Fig.Option.args := None;
          Fig.Option.exclusiveOn := VUndefined;
          Fig.Option.isDangerous := VBool true |}
       :: recipesCommonOptions |}.

(** The marker that [file symfony.lock] prints for a missing file. *)
Definition noSuchFile : jsstring := str "(No such file or directory)".

(** ** The [try] block

    The block runs against the array [subcommands], which is declared
    before it and read after it: a computation of the block takes the
    array and gives back a result or an exception together with the array
    as it stands at that point. *)

Definition Block (A : Type) : Type :=
  list Fig.Subcommand.t -> Result A * list Fig.Subcommand.t.

Definition pure {A} (r : Result A) : Block A :=
  fun subcommands => (r, subcommands).

Definition andThen {A B} (m : Block A) (k : A -> Block B) : Block B :=
  fun subcommands =>
    match m subcommands with
    | (Ok a, subcommands') => k a subcommands'
    | (Throw e, subcommands') => (Throw e, subcommands')
    end.

Notation "x <~ m ;; k" := (andThen m (fun x => k))
  (at level 61, m at next level, right associativity) : js_scope.

(** [subcommands.push(s)]. *)
Definition push (s : Fig.Subcommand.t) : Block unit :=
  fun subcommands => (Ok tt, subcommands ++ [s]).

(** [for (const x of l) body]. *)
Fixpoint forOf {A} (l : list A) (body : A -> Block unit) : Block unit :=
  match l with
  | [] => pure (Ok tt)
  | x :: rest => _ <~ body x ;; forOf rest body
  end.

(** The body of the loop of [generateSpec]. *)
Definition loopBody (command : value) : Block unit :=
  subcommand <~ pure (subcommandOfCommand command) ;; push subcommand.

Section Host.

(** [JSON.parse], a built-in of the host: [None] when it throws (a
    [SyntaxError]). *)
Variable JSON_parse : jsstring -> option value.

Definition callJSON_parse (text : jsstring) : Result value :=
  match JSON_parse text with
  | Some v => Ok v
  | None => Throw SyntaxError
  end.

(** The [try] block of [searchGenerator.postProcess]. *)
Definition searchGenerator_tryBlock (out : jsstring)
  : Result (list Fig.Suggestion.t) :=
  parsed <- callJSON_parse out ;;
  results <- get parsed (str "results") ;;
  callMap results searchSuggestion.

(** [searchGenerator.postProcess]: the [catch] clause returns [[]]. *)
Definition searchGenerator_postProcess (out : jsstring)
  : list Fig.Suggestion.t :=
  match searchGenerator_tryBlock out with
  | Ok suggestions => suggestions
  | Throw _ => []
  end.

(** The body of the [try] statement of [generateSpec]. *)
Definition tryBlock (jsonList symfonyLock : jsstring) : Block unit :=
  data <~ pure (callJSON_parse jsonList) ;;
  commands <~ pure (get data (str "commands")) ;;
  iteration <~ pure (iterate commands) ;;
  _ <~ forOf iteration loopBody ;;
  let symfonyLockExists := negb (endsWith symfonyLock noSuchFile) in
  if symfonyLockExists
  then _ <~ push recipesSubcommand ;; push recipesInstallSubcommand
  else pure (Ok tt).

(** [completionSpec.generateSpec].  The result carries what the call
    wrote with [console.error]; an exception of [executeShellCommand]
    is outside the [try] statement and propagates. *)
Definition generateSpec (tokens : list jsstring)
    (executeShellCommand : jsstring -> Result jsstring)
  : Result (list exn * Fig.Spec.t) :=
  jsonList <- executeShellCommand (str "composer list --format=json") ;;
  symfonyLock <- executeShellCommand (str "file symfony.lock") ;;
  let '(outcome, subcommands) := tryBlock jsonList symfonyLock [] in
  let console :=
    match outcome with
    | Throw err => [err]
    | Ok _ => []
    end in
  Ok (console,
      {| Fig.Spec.name := lit "composer";
         Fig.Spec.subcommands := subcommands |}).

End Host.

(** ** The catalog as the interfaces declare it

    [ComposerListOutput] and the interfaces under it describe the JSON
    that [composer list --format=json] prints.  A catalog of these types
    is a well-formed catalog; [toValue] is the value that [JSON.parse]
    returns for it.  A [Record<string, T>] is the list of its entries in
    the order of its keys. *)

Module ComposerArgument.
(** [null | string | Array<string>]. *)
Inductive default_t : Type :=
| DefaultNull
| DefaultString (s : jsstring)
| DefaultArray (l : list jsstring).

Record t : Type := mk
  { name : jsstring;
    is_required : bool;
    is_array : bool;
    description : jsstring;
    default : default_t }.

Definition defaultToValue (d : default_t) : value :=
  match d with
  | DefaultNull => VNull
  | DefaultString s => VString s
  | DefaultArray l => VArray (map VString l)
  end.

Definition toValue (a : t) : value :=
  VObject [ (str "name", VString (name a));
            (str "is_required", VBool (is_required a));
            (str "is_array", VBool (is_array a));
            (str "description", VString (description a));
            (str "default", defaultToValue (default a)) ].
End ComposerArgument.

Module ComposerOption.
Record t : Type := mk
  { name : jsstring;
    shortcut : jsstring;
    accept_value : bool;
    is_value_required : bool;
    is_multiple : bool;
    description : jsstring;
    default : option bool }.

Definition toValue (o : t) : value :=
  VObject [ (str "name", VString (name o));
            (str "shortcut", VString (shortcut o));
            (str "accept_value", VBool (accept_value o));
            (str "is_value_required", VBool (is_value_required o));
            (str "is_multiple", VBool (is_multiple o));
            (str "description", VString (description o));
            (str "default",
             match default o with
             | Some b => VBool b
             | None => VNull
             end) ].
End ComposerOption.

Module ComposerCommandDefinition.
Record t : Type := mk
  { arguments : list (jsstring * ComposerArgument.t);
    options : list (jsstring * ComposerOption.t) }.

Definition toValue (d : t) : value :=
  VObject
    [ (str "arguments",
       VObject (map (fun kv => (fst kv, ComposerArgument.toValue (snd kv)))
                    (arguments d)));
      (str "options",
       VObject (map (fun kv => (fst kv, ComposerOption.toValue (snd kv)))
                    (options d))) ].
End ComposerCommandDefinition.

Module ComposerCommand.
Record t : Type := mk
  { name : jsstring;
    usage : list jsstring;
    description : jsstring;
    help : jsstring;
    definition : ComposerCommandDefinition.t }.

Definition toValue (c : t) : value :=
  VObject [ (str "name", VString (name c));
            (str "usage", VArray (map VString (usage c)));
            (str "description", VString (description c));
            (str "help", VString (help c));
            (str "definition",
             ComposerCommandDefinition.toValue (definition c)) ].
End ComposerCommand.

Module ComposerListOutput.
Record t : Type := mk
  { commands : list ComposerCommand.t }.

Definition toValue (o : t) : value :=
  VObject [ (str "commands",
             VArray (map ComposerCommand.toValue (commands o))) ].
End ComposerListOutput.

(** ** What the tree holds for an argument and for an option

    [EmittedArg command arg a]: the subcommand built for [command] has the
    Argument-Spec [a] at the position of a key of
    [command.definition.arguments], and [arg] is the argument read at
    that key. *)
Inductive EmittedArg (command arg : value) (a : Fig.Arg.t) : Prop :=
| emitted_arg subcommand definition arguments argKeys args i argKey :
    subcommandOfCommand command = Ok subcommand ->
    get command (str "definition") = Ok definition ->
    get definition (str "arguments") = Ok arguments ->
    Object_keys arguments = Ok argKeys ->
    nth_error argKeys i = Some argKey ->
    get arguments argKey = Ok arg ->
    Fig.Subcommand.args subcommand = Multiple args ->
    nth_error args i = Some a ->
    EmittedArg command arg a.

(** [EmittedOption command option o]: the same for the keys of
    [command.definition.options]. *)
Inductive EmittedOption (command option : value) (o : Fig.Option.t) : Prop :=
| emitted_option subcommand definition options optionKeys i optionKey :
    subcommandOfCommand command = Ok subcommand ->
    get command (str "definition") = Ok definition ->
    get definition (str "options") = Ok options ->
    Object_keys options = Ok optionKeys ->
    nth_error optionKeys i = Some optionKey ->
    get options optionKey = Ok option ->
    nth_error (Fig.Subcommand.options subcommand) i = Some o ->
    EmittedOption command option o.

(** No code unit of [s] is a line terminator. *)
Definition oneLine (s : jsstring) : bool :=
  forallb (fun c => negb (isLineTerminator c)) s.

(** A key with a [/] somewhere and no line terminator anywhere. *)
Definition slashOnOneLine (key : jsstring) : bool :=
  existsb (N.eqb slash) key && oneLine key.

(** ** Examples

    A catalog of one command, the JSON text of it, and a host that knows
    the texts of the examples. *)

(** A JSON text, written with ['] for the double quote. *)
Definition json (s : string) : jsstring :=
  map (fun c => if N.eqb c 39 then 34%N else c) (str s).

Definition examplePackages : ComposerArgument.t :=
  {| ComposerArgument.name := str "packages";
     ComposerArgument.is_required := false;
     ComposerArgument.is_array := true;
     ComposerArgument.description := str "Packages to add";
     ComposerArgument.default := ComposerArgument.DefaultArray [] |}.

Definition exampleBranch : ComposerArgument.t :=
  {| ComposerArgument.name := str "branch";
     ComposerArgument.is_required := false;
     ComposerArgument.is_array := false;
     ComposerArgument.description := str "Branch to use";
     ComposerArgument.default := ComposerArgument.DefaultArray [str "main"] |}.

Definition exampleDev : ComposerOption.t :=
  {| ComposerOption.name := str "--dev";
     ComposerOption.shortcut := str "";
     ComposerOption.accept_value := false;
     ComposerOption.is_value_required := false;
     ComposerOption.is_multiple := false;
     ComposerOption.description := str "Add to require-dev";
     ComposerOption.default := Some false |}.

Definition exampleOptimize : ComposerOption.t :=
  {| ComposerOption.name := str "--optimize-autoloader";
     ComposerOption.shortcut := str "o";
     ComposerOption.accept_value := false;
     ComposerOption.is_value_required := false;
     ComposerOption.is_multiple := false;
     ComposerOption.description := str "Optimize the autoloader";
     ComposerOption.default := Some false |}.

Definition exampleSort : ComposerOption.t :=
  {| ComposerOption.name := str "--sort";
     ComposerOption.shortcut := str " o ";
     ComposerOption.accept_value := true;
     ComposerOption.is_value_required := true;
     ComposerOption.is_multiple := false;
     ComposerOption.description := str "Sort order";
     ComposerOption.default := None |}.

Definition exampleCommand : ComposerCommand.t :=
  {| ComposerCommand.name := str "require";
     ComposerCommand.usage := [str "require [<packages>...]"];
     ComposerCommand.description := str "Adds required packages";
     ComposerCommand.help := str "";
     ComposerCommand.definition :=
       {| ComposerCommandDefinition.arguments :=
            [ (str "packages", examplePackages);
              (str "branch", exampleBranch) ];
          ComposerCommandDefinition.options :=
            [ (str "dev", exampleDev);
              (str "optimize-autoloader", exampleOptimize);
              (str "sort", exampleSort) ] |} |}.

Definition exampleCatalog : ComposerListOutput.t :=
  {| ComposerListOutput.commands := [exampleCommand] |}.

Definition exampleCatalogText : jsstring :=
  json "{'commands':[{'name':'require','usage':['require [<packages>...]'],"
  ++ json "'description':'Adds required packages','help':'','definition':{"
  ++ json "'arguments':{'packages':{'name':'packages','is_required':false,"
  ++ json "'is_array':true,'description':'Packages to add','default':[]},"
  ++ json "'branch':{'name':'branch','is_required':false,'is_array':false,"
  ++ json "'description':'Branch to use','default':['main']}},"
  ++ json "'options':{'dev':{'name':'--dev','shortcut':'',"
  ++ json "'accept_value':false,'is_value_required':false,"
  ++ json "'is_multiple':false,'description':'Add to require-dev',"
  ++ json "'default':false},'optimize-autoloader':{"
  ++ json "'name':'--optimize-autoloader','shortcut':'o',"
  ++ json "'accept_value':false,'is_value_required':false,"
  ++ json "'is_multiple':false,'description':'Optimize the autoloader',"
  ++ json "'default':false},'sort':{'name':'--sort','shortcut':' o ',"
  ++ json "'accept_value':true,'is_value_required':true,"
  ++ json "'is_multiple':false,'description':'Sort order',"
  ++ json "'default':null}}}}]}".

(** A catalog whose second command is [null]. *)
Definition exampleBrokenText : jsstring :=
  json "{'commands':[{'name':'require','description':'d',"
  ++ json "'definition':{'arguments':{},'options':{}}},null]}".

Definition exampleBroken : value :=
  VObject
    [ (str "commands",
       VArray
         [ VObject
             [ (str "name", lit "require");
               (str "description", lit "d");
               (str "definition",
                VObject [ (str "arguments", VObject []);
                          (str "options", VObject []) ]) ];
           VNull ]) ].

(** A search result without the [results] array. *)
Definition exampleErrorText : jsstring := json "{'error':'not found'}".

(** [JSON.parse] on the texts of the examples; the empty text and every
    other text stand for texts that it rejects. *)
Definition exampleJSON_parse (text : jsstring) : option value :=
  if jsstring_eqb text exampleCatalogText
  then Some (ComposerListOutput.toValue exampleCatalog)
  else if jsstring_eqb text exampleBrokenText
  then Some exampleBroken
  else if jsstring_eqb text exampleErrorText
  then Some (VObject [(str "error", lit "not found")])
  else if jsstring_eqb text (str "null")
  then Some VNull
  else None.

(** A host whose [composer list --format=json] prints [jsonList] and
    whose [file symfony.lock] prints [symfonyLock]. *)
Definition exampleShell (jsonList symfonyLock command : jsstring)
  : Result jsstring :=
  if jsstring_eqb command (str "composer list --format=json")
  then Ok jsonList
  else if jsstring_eqb command (str "file symfony.lock")
  then Ok symfonyLock
  else Throw HostError.

(** The Argument-Spec of [exampleBranch] and of [examplePackages]. *)
Definition exampleBranchSpec : Fig.Arg.t :=
  {| Fig.Arg.name := lit "branch";
     Fig.Arg.description := lit "Branch to use";
     Fig.Arg.isOptional := VBool true;
     Fig.Arg.default := lit "main";
     Fig.Arg.isVariadic := VBool false;
     Fig.Arg.generators := Some (Single searchGenerator);
     Fig.Arg.template := VUndefined |}.

Definition examplePackagesSpec : Fig.Arg.t :=
  {| Fig.Arg.name := lit "packages";
     Fig.Arg.description := lit "Packages to add";
     Fig.Arg.isOptional := VBool true;
     Fig.Arg.default := VUndefined;
     Fig.Arg.isVariadic := VBool true;
     Fig.Arg.generators := Some (Single searchGenerator);
     Fig.Arg.template := VUndefined |}.

(** The Option-Spec of [exampleOptimize] and of [exampleSort]. *)
Definition exampleOptimizeSpec : Fig.Option.t :=
  {| Fig.Option.name := lits ["--optimize-autoloader"; "o"];
     Fig.Option.description := lit "Optimize the autoloader";
     Fig.Option.isRequired := VBool false;
     Fig.Option.args := None;
     Fig.Option.exclusiveOn := VUndefined;
     Fig.Option.isDangerous := VUndefined |}.

Definition exampleSortSpec : Fig.Option.t :=
  {| Fig.Option.name := lits ["--sort"; " o "];
     Fig.Option.description := lit "Sort order";
     Fig.Option.isRequired := VBool true;
     Fig.Option.args := Some Fig.Arg.empty;
     Fig.Option.exclusiveOn := VUndefined;
     Fig.Option.isDangerous := VUndefined |}.

(** ** [packagesGenerator.postProcess]

    [Object.assign] is a built-in of the host.  On a target that is a
    plain object it sets the own enumerable properties of the source on
    the target, one by one, and returns the target; [assignOrdinary]
    writes that out.  What it does on other targets (arrays and the
    wrappers of primitives) is left to the host. *)

(** [v || {}]. *)
Definition orEmptyObject (v : value) : value :=
  if ToBoolean v then v else VObject [].

Definition isDigit (c : code_unit) : bool := (N.leb 48 c && N.leb c 57)%N.

Fixpoint digitsValue (acc : N) (s : jsstring) : N :=
  match s with
  | [] => acc
  | c :: rest => digitsValue (acc * 10 + (c - 48))%N rest
  end.

(** The array index that a property key denotes: a canonical decimal
    numeral below 2^32 - 1. *)
Definition arrayIndex (k : jsstring) : option N :=
  match k with
  | [] => None
  | c :: rest =>
      if forallb isDigit k
         && (negb (N.eqb c 48) || Nat.eqb (length rest) 0)
         && N.leb (digitsValue 0 k) 4294967294
      then Some (digitsValue 0 k)
      else None
  end.

Definition hasKey (k : jsstring) (props : list (jsstring * value)) : bool :=
  existsb (jsstring_eqb k) (map fst props).

Fixpoint replaceValue (k : jsstring) (v : value)
    (props : list (jsstring * value)) : list (jsstring * value) :=
  match props with
  | [] => []
  | (k', v') :: rest =>
      if jsstring_eqb k k'
      then (k', v) :: rest
      else (k', v') :: replaceValue k v rest
  end.

(** A new array-index key goes among the array-index keys, which come
    first and ascend. *)
Fixpoint insertIndex (i : N) (k : jsstring) (v : value)
    (props : list (jsstring * value)) : list (jsstring * value) :=
  match props with
  | [] => [(k, v)]
  | (k', v') :: rest =>
      match arrayIndex k' with
      | Some j =>
          if N.ltb j i
          then (k', v') :: insertIndex i k v rest
          else (k, v) :: props
      | None => (k, v) :: props
      end
  end.

(** [Set(target, k, v)] on a plain object: an own property keeps its
    place and takes the value; [__proto__] that is not an own property
    goes to the setter of [Object.prototype] and adds no property; any
    other key is a new property, in the order of [[OwnPropertyKeys]]. *)
Definition setOrdinary (props : list (jsstring * value))
    (kv : jsstring * value) : list (jsstring * value) :=
  let (k, v) := kv in
  if hasKey k props then replaceValue k v props
  else if jsstring_eqb k (str "__proto__") then props
  else match arrayIndex k with
       | Some i => insertIndex i k v props
       | None => props ++ [(k, v)]
       end.

Definition assignOrdinary (target source : list (jsstring * value))
  : list (jsstring * value) :=
  fold_left setOrdinary source target.

(** What [Object.assign] does on a plain object. *)
Definition AssignsOrdinary (Object_assign : value -> value -> Result value)
  : Prop :=
  forall target source,
    Object_assign (VObject target) source
    = Ok (VObject (assignOrdinary target (ownProperties source))).

(** The arrow function of [packagesGenerator.postProcess]. *)
Definition packageSuggestion (dependencyName : jsstring)
  : Fig.Suggestion.t :=
  Fig.Suggestion.mk (VString dependencyName) VUndefined (VString packageIcon).

Section Manifest.

Variable JSON_parse : jsstring -> option value.
Variable Object_assign : value -> value -> Result value.

(** The [try] block of [packagesGenerator.postProcess]. *)
Definition packagesGenerator_tryBlock (out : jsstring)
  : Result (list Fig.Suggestion.t) :=
  packageContent <- callJSON_parse JSON_parse out ;;
  require <- get packageContent (str "require") ;;
  let dependencies := orEmptyObject require in
  requireDev <- get packageContent (str "require-dev") ;;
  let devDependencies := orEmptyObject requireDev in
  merged <- Object_assign dependencies devDependencies ;;
  names <- filterRealDependencies merged ;;
  Ok (map packageSuggestion names).

(** [packagesGenerator.postProcess]: what it writes with [console.log]
    and what it returns. *)
Definition packagesGenerator_postProcess (out : jsstring)
  : list exn * list Fig.Suggestion.t :=
  if Nat.eqb (length (trim out)) 0
  then ([], [])
  else match packagesGenerator_tryBlock out with
       | Ok suggestions => ([], suggestions)
       | Throw e => ([e], [])
       end.

End Manifest.

(** [v] is [undefined] or [null]. *)
Definition nullish (v : value) : bool :=
  match v with
  | VUndefined | VNull => true
  | _ => false
  end.

(** What a property read gives on a value that is not [undefined] or
    [null]. *)
Definition property (v : value) (k : jsstring) : value :=
  match lookup k (ownProperties v) with
  | Some x => x
  | None => VUndefined
  end.

(** An [Object.assign] for the examples, whose targets are plain objects:
    there it is the host's; on any other target it throws, which the
    host's does not. *)
Definition exampleObject_assign (target source : value) : Result value :=
  match target with
  | VObject props => Ok (VObject (assignOrdinary props (ownProperties source)))
  | _ => Throw HostError
  end.

Definition exampleManifestText : jsstring :=
  json "{'require':{'php':'>=8.1','symfony/console':'^6.0',"
  ++ json "'monolog/monolog':'^3.0'},'require-dev':{"
  ++ json "'phpunit/phpunit':'^10.0','symfony/console':'^6.2'}}".

Definition exampleManifest : value :=
  VObject
    [ (str "require",
       VObject [ (str "php", lit ">=8.1");
                 (str "symfony/console", lit "^6.0");
                 (str "monolog/monolog", lit "^3.0") ]);
      (str "require-dev",
       VObject [ (str "phpunit/phpunit", lit "^10.0");
                 (str "symfony/console", lit "^6.2") ]) ].

Definition exampleSearchText : jsstring :=
  json "{'results':[{'name':'monolog/monolog','description':'Logging'}]}".

(** [JSON.parse] on the texts of the manifest and search examples. *)
Definition exampleManifest_parse (text : jsstring) : option value :=
  if jsstring_eqb text exampleManifestText
  then Some exampleManifest
  else if jsstring_eqb text exampleSearchText
  then Some (VObject
               [ (str "results",
                  VArray [ VObject [ (str "name", lit "monolog/monolog");
                                     (str "description", lit "Logging") ] ]) ])
  else if jsstring_eqb text (str "null")
  then Some VNull
  else None.

(** The Option-Spec of [exampleDev] and the subcommand of
    [exampleCommand]. *)
Definition exampleDevSpec : Fig.Option.t :=
  {| Fig.Option.name := lits ["--dev"];
     Fig.Option.description := lit "Add to require-dev";
     Fig.Option.isRequired := VBool false;
     Fig.Option.args := None;
     Fig.Option.exclusiveOn := VUndefined;
     Fig.Option.isDangerous := VUndefined |}.

Definition exampleSubcommand : Fig.Subcommand.t :=
  {| Fig.Subcommand.name := lit "require";
     Fig.Subcommand.description := lit "Adds required packages";
     Fig.Subcommand.icon := VString composerIcon;
     Fig.Subcommand.args := Multiple [examplePackagesSpec; exampleBranchSpec];
     Fig.Subcommand.options :=
       [exampleDevSpec; exampleOptimizeSpec; exampleSortSpec] |}.

(** A host whose [composer list --format=json] is not installed. *)
Definition exampleFailingShell (command : jsstring) : Result jsstring :=
  Throw HostError.

(** ** Well-formed catalogs

    What the transformation reads of a catalog, whatever other keys its
    objects have and in whatever order: the command list is an array; a
    command, its [definition] and the two mappings of the definition are
    neither [null] nor [undefined]; no argument is [null] or [undefined];
    and every option is such a value with a string [shortcut].  The
    catalogs of the interfaces are among them. *)

Definition isString (v : value) : bool :=
  match v with
  | VString _ => true
  | _ => false
  end.

Definition wellFormedOption (option : value) : bool :=
  negb (nullish option) && isString (property option (str "shortcut")).

Definition wellFormedCommand (command : value) : bool :=
  let definition := property command (str "definition") in
  let arguments := property definition (str "arguments") in
  let options := property definition (str "options") in
  negb (nullish command) && negb (nullish definition)
  && negb (nullish arguments) && negb (nullish options)
  && forallb (fun k => negb (nullish (property arguments k)))
             (map fst (ownProperties arguments))
  && forallb (fun k => wellFormedOption (property options k))
             (map fst (ownProperties options)).

(** The commands of a catalog whose [commands] is an array. *)
Definition catalogCommands (data : value) : list value :=
  match property data (str "commands") with
  | VArray commands => commands
  | _ => []
  end.

Definition wellFormedCatalog (data : value) : bool :=
  negb (nullish data)
  && Array_isArray (property data (str "commands"))
  && forallb wellFormedCommand (catalogCommands data).

(** A catalog of one command with the fields that the transformation
    reads and no others, and a search result whose item is a number. *)
Definition exampleMinimalText : jsstring :=
  json "{'commands':[{'name':'require','definition':{'arguments':{'a':{"
  ++ json "'name':'package','is_required':true,'is_array':false,"
  ++ json "'description':'d','default':null}},'options':{}}}]}".

Definition exampleMinimal : value :=
  VObject
    [ (str "commands",
       VArray
         [ VObject
             [ (str "name", lit "require");
               (str "definition",
                VObject
                  [ (str "arguments",
                     VObject
                       [ (str "a",
                          VObject [ (str "name", lit "package");
                                    (str "is_required", VBool true);
                                    (str "is_array", VBool false);
                                    (str "description", lit "d");
                                    (str "default", VNull) ]) ]);
                    (str "options", VObject []) ]) ] ]) ].

Definition exampleNumberItemText : jsstring := json "{'results':[5]}".

(** [JSON.parse] on these two texts. *)
Definition exampleMinimal_parse (text : jsstring) : option value :=
  if jsstring_eqb text exampleMinimalText
  then Some exampleMinimal
  else if jsstring_eqb text exampleNumberItemText
  then Some (VObject [(str "results", VArray [VNumber 5])])
  else None.

(** * Properties *)

Unset Implicit Arguments.

(** ** Strings *)

Lemma jsstring_eqb_eq (a b : jsstring) : jsstring_eqb a b = true <-> a = b.
Proof.
  revert b; induction a as [|x a IH]; intros [|y b]; simpl;
    try (split; [discriminate | congruence]); try tauto.
  rewrite andb_true_iff, N.eqb_eq, IH.
  split; [intros [-> ->]; reflexivity | intros H; inversion H; auto].
Qed.

Lemma jsstring_eqb_refl (a : jsstring) : jsstring_eqb a a = true.
Proof. apply jsstring_eqb_eq; reflexivity. Qed.

Lemma jsstring_eqb_neq (a b : jsstring) : jsstring_eqb a b = false <-> a <> b.
Proof.
  rewrite <- jsstring_eqb_eq.
  destruct (jsstring_eqb a b); split; congruence.
Qed.

Lemma strictEqualsString_spec (v : value) (s : jsstring) :
  strictEqualsString v s = true <-> v = VString s.
Proof.
  destruct v; simpl; try (split; [discriminate | congruence]).
  rewrite jsstring_eqb_eq; split; congruence.
Qed.

(** ** The matcher *)

Ltac inv H := inversion H; subst; clear H.

(** Splits the equation that inverting a match of [Seq] leaves. *)
Ltac split_word :=
  match goal with
  | E : ?s1 ++ _ = [] |- _ => apply app_eq_nil in E as [-> ->]
  | E : ?s1 ++ _ = _ :: _ |- _ =>
      destruct s1; simpl in E; [subst | inv E]
  end.

Lemma nullable_Matches (r : regex) : nullable r = true <-> Matches r [].
Proof.
  induction r; simpl.
  - split; [discriminate | inversion 1].
  - split; [constructor | reflexivity].
  - split; [discriminate | inversion 1].
  - split; [discriminate | inversion 1].
  - rewrite orb_true_iff, IHr1, IHr2; split.
    + intros [H | H]; [apply MAltL | apply MAltR]; exact H.
    + intros H; inv H; auto.
  - rewrite andb_true_iff, IHr1, IHr2; split.
    + intros [H1 H2]; change (@nil code_unit) with (@nil code_unit ++ []).
      constructor; assumption.
    + intros H; inv H; split_word; auto.
  - split; [constructor | reflexivity].
Qed.

(** A non-empty match of [Star r] starts with a non-empty match of [r]. *)
Lemma Matches_Star_cons (r : regex) (c : code_unit) (s : jsstring) :
  Matches (Star r) (c :: s) ->
  exists s1 s2, s = s1 ++ s2 /\ Matches r (c :: s1) /\ Matches (Star r) s2.
Proof.
  intros H; remember (Star r) as r' eqn:Er; remember (c :: s) as w eqn:Ew.
  revert c s Ew; induction H; intros c' s' Ew; try discriminate.
  inv Er.
  destruct s1 as [|x s1]; simpl in Ew.
  - apply IHMatches2; auto.
  - inv Ew. exists s1, s2; auto.
Qed.

Lemma Matches_cons_app (r1 r2 : regex) c s1 s2 :
  Matches r1 (c :: s1) -> Matches r2 s2 -> Matches (Seq r1 r2) (c :: s1 ++ s2).
Proof.
  intros H1 H2; change (c :: s1 ++ s2) with ((c :: s1) ++ s2).
  constructor; assumption.
Qed.

Lemma deriv_Matches (r : regex) (c : code_unit) (s : jsstring) :
  Matches (deriv c r) s <-> Matches r (c :: s).
Proof.
  revert s; induction r; intros s; simpl.
  - split; inversion 1.
  - split; inversion 1.
  - destruct (N.eqb_spec c c0) as [->|Hne]; split; intros H; inv H.
    + constructor.
    + constructor.
    + congruence.
  - destruct (isLineTerminator c) eqn:E; split; intros H; inv H.
    + congruence.
    + constructor; assumption.
    + constructor.
  - split; intros H; inv H.
    + apply MAltL, IHr1; assumption.
    + apply MAltR, IHr2; assumption.
    + apply MAltL, IHr1; assumption.
    + apply MAltR, IHr2; assumption.
  - destruct (nullable r1) eqn:En; split; intros H.
    + inv H.
      * match goal with H : Matches (Seq _ _) _ |- _ => inv H end.
        apply Matches_cons_app; [apply IHr1|]; assumption.
      * change (c :: s) with ([] ++ c :: s).
        constructor; [apply nullable_Matches | apply IHr2]; assumption.
    + inv H; split_word.
      * apply MAltR, IHr2; assumption.
      * apply MAltL; constructor; [apply IHr1|]; assumption.
    + inv H. apply Matches_cons_app; [apply IHr1|]; assumption.
    + inv H; split_word.
      * match goal with H : Matches r1 [] |- _ =>
          apply nullable_Matches in H; congruence end.
      * constructor; [apply IHr1|]; assumption.
  - split; intros H.
    + inv H. change (c :: s1 ++ s2) with ((c :: s1) ++ s2).
      constructor; [apply IHr|]; assumption.
    + apply Matches_Star_cons in H as (s1 & s2 & -> & H1 & H2).
      constructor; [apply IHr|]; assumption.
Qed.

Lemma wholeMatch_Matches (r : regex) (s : jsstring) :
  wholeMatch r s = true <-> Matches r s.
Proof.
  revert r; induction s as [|c s IH]; intros r; simpl.
  - apply nullable_Matches.
  - rewrite IH; apply deriv_Matches.
Qed.

(** ** [PACKAGE_REGEXP] *)

Lemma Matches_Star_Dot (s : jsstring) :
  Matches (Star Dot) s <-> oneLine s = true.
Proof.
  split.
  - intros H; remember (Star Dot) as r eqn:Er.
    induction H; try discriminate; inv Er; [reflexivity|].
    match goal with H : Matches Dot _ |- _ => inv H end.
    simpl. rewrite IHMatches2 by reflexivity.
    match goal with H : isLineTerminator _ = false |- _ => rewrite H end.
    reflexivity.
  - induction s as [|c s IH]; simpl; intros H; [constructor|].
    apply andb_true_iff in H as [Hc Hs]. apply negb_true_iff in Hc.
    change (c :: s) with ([c] ++ s).
    constructor; [constructor; assumption | auto].
Qed.

Lemma Matches_PACKAGE_REGEXP (key : jsstring) :
  Matches PACKAGE_REGEXP key <->
  exists scope name,
    key = scope ++ slash :: name /\ oneLine scope = true /\ oneLine name = true.
Proof.
  unfold PACKAGE_REGEXP; split.
  - intros H; inv H.
    match goal with H : Matches (Seq _ _) _ |- _ => inv H end.
    match goal with H : Matches (Chr _) _ |- _ => inv H end.
    repeat match goal with
           | H : Matches (Star Dot) _ |- _ => apply Matches_Star_Dot in H
           end.
    do 2 eexists; split; [reflexivity | split; assumption].
  - intros (scope & name & -> & Hs & Hn).
    constructor; [apply Matches_Star_Dot; assumption|].
    change (slash :: name) with ([slash] ++ name).
    constructor; [constructor | apply Matches_Star_Dot; assumption].
Qed.

Lemma oneLine_app (a b : jsstring) :
  oneLine (a ++ b) = oneLine a && oneLine b.
Proof. apply forallb_app. Qed.

Lemma slashOnOneLine_split (key : jsstring) :
  slashOnOneLine key = true <->
  exists scope name,
    key = scope ++ slash :: name /\ oneLine scope = true /\ oneLine name = true.
Proof.
  unfold slashOnOneLine; rewrite andb_true_iff, existsb_exists; split.
  - intros [(c & Hin & Hc) Hl]. apply N.eqb_eq in Hc; subst c.
    apply in_split in Hin as (scope & name & ->).
    rewrite oneLine_app in Hl; simpl in Hl.
    apply andb_true_iff in Hl as [Hs Hn].
    exists scope, name; auto.
  - intros (scope & name & -> & Hs & Hn); split.
    + exists slash; split; [apply in_elt | apply N.eqb_refl].
    + rewrite oneLine_app; simpl. rewrite Hs; exact Hn.
Qed.

Lemma wholeMatch_PACKAGE_REGEXP (key : jsstring) :
  wholeMatch PACKAGE_REGEXP key = slashOnOneLine key.
Proof.
  apply eq_true_iff_eq.
  rewrite wholeMatch_Matches, Matches_PACKAGE_REGEXP, slashOnOneLine_split.
  reflexivity.
Qed.

(** C3, as the code has it: [filterRealDependencies], applied to a
    dependency mapping, returns exactly the keys that have a [/] and no
    line terminator, in the iteration order of the mapping.  Such a key is
    any run of characters other than line terminators, a [/], and any such
    run again; either run may be empty. *)
Theorem filterRealDependencies_slash_keys
    (dependencies : list (jsstring * value)) :
  filterRealDependencies (VObject dependencies)
  = Ok (filter slashOnOneLine (map fst dependencies))
  /\ (forall key,
        slashOnOneLine key = true <->
        exists scope name,
          key = scope ++ slash :: name
          /\ Forall (fun c => isLineTerminator c = false) scope
          /\ Forall (fun c => isLineTerminator c = false) name).
Proof.
  split.
  - unfold filterRealDependencies; simpl. f_equal.
    apply filter_ext; intros key; apply wholeMatch_PACKAGE_REGEXP.
  - intros key; rewrite slashOnOneLine_split.
    assert (E : forall s, oneLine s = true
                          <-> Forall (fun c => isLineTerminator c = false) s).
    { intros s; unfold oneLine; rewrite forallb_forall, Forall_forall.
      split; intros H c Hc; specialize (H c Hc);
        [apply negb_true_iff | apply negb_true_iff]; exact H. }
    split; intros (scope & name & -> & Hs & Hn); exists scope, name;
      rewrite ?E in *; auto.
Qed.

(** C3 as stated fails: the keys [/], [/x] and [x/], with an empty part
    on a side of the slash, are all returned. *)
Lemma filterRealDependencies_keeps_empty_parts :
  filterRealDependencies
    (VObject [ (str "/", lit "^1.0"); (str "/x", lit "^1.0");
               (str "x/", lit "^1.0"); (str "notapackage", lit "^2.0") ])
  = Ok [str "/"; str "/x"; str "x/"].
Proof. reflexivity. Qed.

(** ** The error monad *)

Lemma bind_Ok {A B} (m : Result A) (k : A -> Result B) (b : B) :
  bind m k = Ok b -> exists a, m = Ok a /\ k a = Ok b.
Proof. destruct m as [a|e]; simpl; [eauto | discriminate]. Qed.

(** Inverts a chain of binds that returns. *)
Ltac bind_inv H :=
  repeat (let x := fresh "x" in
          let E := fresh "E" in
          apply bind_Ok in H as (x & E & H); cbv beta in H).

Lemma mapM_nth {A B} (f : A -> Result B) (l : list A) (ys : list B)
    (i : nat) (x : A) (y : B) :
  mapM f l = Ok ys ->
  nth_error l i = Some x -> nth_error ys i = Some y -> f x = Ok y.
Proof.
  revert ys i; induction l as [|x0 l IH]; intros ys i H Hx Hy.
  - destruct i; discriminate.
  - simpl in H. bind_inv H. inv H.
    destruct i as [|i]; simpl in Hx, Hy.
    + congruence.
    + eapply IH; eauto.
Qed.

Lemma mapM_Forall2 {A B} (f : A -> Result B) (l : list A) (ys : list B) :
  mapM f l = Ok ys <-> Forall2 (fun x y => f x = Ok y) l ys.
Proof.
  revert ys; induction l as [|x l IH]; intros ys; simpl.
  - split; intros H; [inv H; constructor | inv H; reflexivity].
  - split; intros H.
    + bind_inv H. inv H. constructor; [assumption | apply IH; assumption].
    + inv H. match goal with H : f x = Ok _ |- _ => rewrite H end.
      simpl. apply IH in H4. rewrite H4. reflexivity.
Qed.

(** [mapM] returns as soon as every element is mapped without an
    exception. *)
Lemma mapM_total {A B} (f : A -> Result B) (l : list A) :
  (forall x, In x l -> exists y, f x = Ok y) -> exists ys, mapM f l = Ok ys.
Proof.
  induction l as [|x l IH]; intros H; simpl; [eauto|].
  destruct (H x (or_introl eq_refl)) as [y ->].
  destruct IH as [ys ->]; [intros; apply H; right; assumption|].
  simpl; eauto.
Qed.

(** ** The Argument-Spec and the Option-Spec of the tree *)

Lemma EmittedArg_argSpec (command arg : value) (a : Fig.Arg.t) :
  EmittedArg command arg a -> argSpec command arg = Ok a.
Proof.
  intros [subcommand definition arguments argKeys args i argKey
            Hsub Hdef Hargs Hkeys Hkey Hget Hfield Ha].
  unfold subcommandOfCommand in Hsub. bind_inv Hsub. inv Hsub.
  simpl in Hfield. inv Hfield.
  assert (x1 = definition) by congruence; subst x1.
  assert (x2 = arguments) by congruence; subst x2.
  assert (x3 = argKeys) by congruence; subst x3.
  pose proof (mapM_nth _ _ _ _ _ _ E4 Hkey Ha) as Hcall.
  unfold argOfKey in Hcall. rewrite Hdef in Hcall; simpl in Hcall.
  rewrite Hargs in Hcall; simpl in Hcall.
  rewrite Hget in Hcall. exact Hcall.
Qed.

Lemma EmittedOption_optionSpec (command option : value) (o : Fig.Option.t) :
  EmittedOption command option o -> optionSpec option = Ok o.
Proof.
  intros [subcommand definition options optionKeys i optionKey
            Hsub Hdef Hopts Hkeys Hkey Hget Ho].
  unfold subcommandOfCommand in Hsub. bind_inv Hsub. inv Hsub.
  simpl in Ho.
  assert (x5 = definition) by congruence; subst x5.
  assert (x6 = options) by congruence; subst x6.
  assert (x7 = optionKeys) by congruence; subst x7.
  pose proof (mapM_nth _ _ _ _ _ _ E8 Hkey Ho) as Hcall.
  unfold optionOfKey in Hcall. rewrite Hdef in Hcall; simpl in Hcall.
  rewrite Hopts in Hcall; simpl in Hcall.
  rewrite Hget in Hcall. exact Hcall.
Qed.

Lemma includes_triggers (name : value) :
  includes packagesGeneratorTriggersCommands name = true
  <-> name = lit "update" \/ name = lit "remove".
Proof.
  unfold includes, packagesGeneratorTriggersCommands; simpl existsb.
  rewrite orb_false_r, orb_true_iff, !strictEqualsString_spec.
  reflexivity.
Qed.

Lemma lit_inj (s t : string) : lit s = lit t -> str s = str t.
Proof. unfold lit; congruence. Qed.

Lemma argSpec_generators (command arg name : value) (a : Fig.Arg.t) :
  argSpec command arg = Ok a ->
  get command (str "name") = Ok name ->
  Fig.Arg.generators a
  = Some (if strictEqualsString name (str "require")
          then Single searchGenerator
          else if includes packagesGeneratorTriggersCommands name
               then Single packagesGenerator
               else Multiple []).
Proof.
  intros Hspec Hname. unfold argSpec in Hspec. bind_inv Hspec.
  injection Hspec as <-. cbn [Fig.Arg.generators].
  replace name with x5 by congruence. reflexivity.
Qed.

(** C4: for every command and each of its arguments, the generators
    attached to the Argument-Spec are [searchGenerator] exactly when the
    command's name is the string ["require"], [packagesGenerator] exactly
    when it is ["update"] or ["remove"], and the empty array exactly when
    it is none of the three. *)
Theorem generators_by_command_name
    (command arg name : value) (a : Fig.Arg.t) :
  EmittedArg command arg a ->
  get command (str "name") = Ok name ->
  (Fig.Arg.generators a = Some (Single searchGenerator)
   <-> name = lit "require")
  /\ (Fig.Arg.generators a = Some (Single packagesGenerator)
      <-> name = lit "update" \/ name = lit "remove")
  /\ (Fig.Arg.generators a = Some (Multiple [])
      <-> name <> lit "require" /\ name <> lit "update"
          /\ name <> lit "remove").
Proof.
  intros Hemit Hname. apply EmittedArg_argSpec in Hemit.
  rewrite (argSpec_generators _ _ _ _ Hemit Hname).
  pose proof (strictEqualsString_spec name (str "require")) as Hreq.
  pose proof (includes_triggers name) as Htrig.
  fold (lit "require") in Hreq.
  assert (Hru : lit "require" <> lit "update")
    by (intros H; apply lit_inj in H; discriminate).
  assert (Hrr : lit "require" <> lit "remove")
    by (intros H; apply lit_inj in H; discriminate).
  destruct (strictEqualsString name (str "require"));
    destruct (includes packagesGeneratorTriggersCommands name).
  - assert (name = lit "require") by (apply Hreq; reflexivity); subst name.
    repeat split; try discriminate; try tauto.
  - assert (name = lit "require") by (apply Hreq; reflexivity); subst name.
    repeat split; try discriminate; try tauto.
  - assert (Hn : name <> lit "require")
      by (intros H; apply Hreq in H; discriminate).
    repeat split; try discriminate; try tauto.
  - assert (Hn : name <> lit "require")
      by (intros H; apply Hreq in H; discriminate).
    assert (Hn' : ~ (name = lit "update" \/ name = lit "remove"))
      by (intros H; apply Htrig in H; discriminate).
    repeat split; try discriminate; try tauto.
Qed.

Lemma get_first (first : value) (rest : list value) :
  get (VArray (first :: rest)) (indexKey 0) = Ok first.
Proof. reflexivity. Qed.

(** C5: for every argument, the default of its Argument-Spec is the first
    element of [default] when [default] is a non-empty array, [default]
    itself when it is truthy and not an array, and [undefined] when
    [default] is absent or falsy; the default [["main"]] gives ["main"]. *)
Theorem default_resolution (command arg d : value) (a : Fig.Arg.t) :
  EmittedArg command arg a ->
  get arg (str "default") = Ok d ->
  (forall first rest, d = VArray (first :: rest) -> Fig.Arg.default a = first)
  /\ (Array_isArray d = false -> ToBoolean d = true -> Fig.Arg.default a = d)
  /\ (ToBoolean d = false -> Fig.Arg.default a = VUndefined)
  /\ (d = VArray [lit "main"] -> Fig.Arg.default a = lit "main").
Proof.
  intros Hemit Hd. apply EmittedArg_argSpec in Hemit.
  unfold argSpec in Hemit. bind_inv Hemit. inv Hemit. simpl.
  assert (x = d) by congruence; subst x.
  repeat split.
  - intros first rest ->. cbn [ToBoolean Array_isArray] in E0.
    rewrite get_first in E0. congruence.
  - intros Harr Htrue. rewrite Htrue, Harr in E0. congruence.
  - intros Hfalse. rewrite Hfalse in E0. congruence.
  - intros ->. cbn [ToBoolean Array_isArray] in E0.
    rewrite get_first in E0. congruence.
Qed.

(** C9: an argument whose [default] is the empty array, a truthy value,
    has an Argument-Spec without a default. *)
Theorem empty_array_default (command arg : value) (a : Fig.Arg.t) :
  EmittedArg command arg a ->
  get arg (str "default") = Ok (VArray []) ->
  Fig.Arg.default a = VUndefined /\ ToBoolean (VArray []) = true.
Proof.
  intros Hemit Hd. apply EmittedArg_argSpec in Hemit.
  unfold argSpec in Hemit. bind_inv Hemit. inv Hemit. simpl.
  assert (x = VArray []) by congruence; subst x.
  simpl in E0. split; [congruence | reflexivity].
Qed.

(** C6: for every option, the [isRequired] of its Option-Spec is the
    option's [is_value_required], whatever its other fields are. *)
Theorem isRequired_is_value_required
    (command option required : value) (o : Fig.Option.t) :
  EmittedOption command option o ->
  get option (str "is_value_required") = Ok required ->
  Fig.Option.isRequired o = required.
Proof.
  intros Hemit Hreq. apply EmittedOption_optionSpec in Hemit.
  unfold optionSpec in Hemit. bind_inv Hemit. inv Hemit. simpl.
  congruence.
Qed.

Lemma length_pos_iff (s : jsstring) : Nat.ltb 0 (length s) = true <-> s <> [].
Proof.
  destruct s; simpl; split; try congruence; try discriminate.
  reflexivity.
Qed.

Lemma optionSpec_names (option name : value) (s : jsstring)
    (o : Fig.Option.t) :
  optionSpec option = Ok o ->
  get option (str "name") = Ok name ->
  get option (str "shortcut") = Ok (VString s) ->
  Fig.Option.name o
  = VArray (if Nat.ltb 0 (length (trim s))
            then [name; VString s] else [name]).
Proof.
  intros Hspec Hname Hshort.
  unfold optionSpec in Hspec. bind_inv Hspec. inv Hspec. simpl.
  assert (x = name) by congruence; subst x.
  assert (x0 = VString s) by congruence; subst x0.
  simpl in E1. inv E1. reflexivity.
Qed.

(** C7: for every option with a string shortcut, the alias list of its
    Option-Spec starts with the option's name, and the shortcut follows
    it exactly when it is not blank after trimming: the shortcut [""]
    gives one alias, the shortcut ["o"] gives two. *)
Theorem aliases_of_option
    (command option name : value) (s : jsstring) (o : Fig.Option.t) :
  EmittedOption command option o ->
  get option (str "name") = Ok name ->
  get option (str "shortcut") = Ok (VString s) ->
  (trim s <> [] -> Fig.Option.name o = VArray [name; VString s])
  /\ (trim s = [] -> Fig.Option.name o = VArray [name])
  /\ (s = str "" -> Fig.Option.name o = VArray [name])
  /\ (s = str "o" -> Fig.Option.name o = VArray [name; lit "o"]).
Proof.
  intros Hemit Hname Hshort. apply EmittedOption_optionSpec in Hemit.
  rewrite (optionSpec_names _ _ _ _ Hemit Hname Hshort).
  repeat split.
  - intros H. apply length_pos_iff in H. rewrite H. reflexivity.
  - intros ->. reflexivity.
  - intros ->. reflexivity.
  - intros ->. reflexivity.
Qed.

(** C10: for every option whose string shortcut is not blank after
    trimming, the second alias of its Option-Spec is the shortcut as the
    catalog has it, untrimmed. *)
Theorem shortcut_alias_untrimmed
    (command option : value) (s : jsstring) (o : Fig.Option.t) :
  EmittedOption command option o ->
  get option (str "shortcut") = Ok (VString s) ->
  trim s <> [] ->
  exists name,
    get option (str "name") = Ok name
    /\ Fig.Option.name o = VArray [name; VString s].
Proof.
  intros Hemit Hshort Hblank. apply EmittedOption_optionSpec in Hemit.
  pose proof Hemit as Hspec.
  unfold optionSpec in Hspec. bind_inv Hspec. clear Hspec.
  exists x; split; [assumption|].
  rewrite (optionSpec_names _ _ _ _ Hemit E Hshort).
  apply length_pos_iff in Hblank. rewrite Hblank. reflexivity.
Qed.

(** ** [endsWith] *)

Lemma endsWith_suffix (s suffix : jsstring) :
  endsWith s suffix = true <-> exists prefix, s = prefix ++ suffix.
Proof.
  unfold endsWith; rewrite andb_true_iff, Nat.leb_le, jsstring_eqb_eq; split.
  - intros [_ H]. exists (firstn (length s - length suffix) s).
    pose proof (firstn_skipn (length s - length suffix) s) as F.
    rewrite H in F. symmetry; exact F.
  - intros [prefix ->]. rewrite length_app. split; [lia|].
    replace (length prefix + length suffix - length suffix)%nat
      with (length prefix + 0)%nat by lia.
    rewrite skipn_app, Nat.add_0_r, skipn_all.
    replace (length prefix - length prefix)%nat with 0%nat by lia.
    reflexivity.
Qed.

(** ** The loop of the [try] block *)

Lemma forOf_all (commands : list value) (built : list Fig.Subcommand.t) :
  Forall2 (fun c s => subcommandOfCommand c = Ok s) commands built ->
  forall subcommands,
    forOf commands loopBody subcommands = (Ok tt, subcommands ++ built).
Proof.
  induction 1 as [|c s commands built Hc _ IH]; intros subcommands; simpl.
  - unfold pure. rewrite app_nil_r. reflexivity.
  - unfold andThen, loopBody at 1, andThen, pure, push. rewrite Hc.
    rewrite IH, <- app_assoc. reflexivity.
Qed.

Lemma forOf_throw (done rest : list value) (failing : value)
    (built : list Fig.Subcommand.t) (e : exn) :
  Forall2 (fun c s => subcommandOfCommand c = Ok s) done built ->
  subcommandOfCommand failing = Throw e ->
  forall subcommands,
    forOf (done ++ failing :: rest) loopBody subcommands
    = (Throw e, subcommands ++ built).
Proof.
  intros Hdone Hfail.
  induction Hdone as [|c s done built Hc _ IH]; intros subcommands; simpl.
  - unfold andThen, loopBody, andThen, pure. rewrite Hfail, app_nil_r.
    reflexivity.
  - unfold andThen, loopBody at 1, andThen, pure, push. rewrite Hc.
    rewrite IH, <- app_assoc. reflexivity.
Qed.

(** ** Well-formed catalogs are transformed without an exception *)

Lemma get_not_nullish (v : value) (k : jsstring) :
  v <> VUndefined -> v <> VNull -> exists x, get v k = Ok x.
Proof. destruct v; simpl; intros; try congruence; eauto. Qed.

Lemma lookup_entries {T} (f : T -> value) (l : list (jsstring * T))
    (k : jsstring) :
  In k (map fst l) ->
  exists t, lookup k (map (fun kv => (fst kv, f (snd kv))) l) = Some (f t).
Proof.
  induction l as [|[k' t'] l IH]; simpl; [tauto|].
  intros H. destruct (jsstring_eqb k k') eqn:E; [eauto|].
  apply IH. destruct H as [H|H]; [|assumption].
  subst. rewrite jsstring_eqb_refl in E. discriminate.
Qed.

Lemma keys_entries {T} (f : T -> value) (l : list (jsstring * T)) :
  map fst (map (fun kv => (fst kv, f (snd kv))) l) = map fst l.
Proof. rewrite map_map. reflexivity. Qed.

Lemma argSpec_wellformed (c : ComposerCommand.t) (a : ComposerArgument.t) :
  exists s,
    argSpec (ComposerCommand.toValue c) (ComposerArgument.toValue a) = Ok s.
Proof.
  unfold argSpec.
  change (get (ComposerArgument.toValue a) (str "default"))
    with (Ok (ComposerArgument.defaultToValue (ComposerArgument.default a))).
  change (get (ComposerArgument.toValue a) (str "name"))
    with (Ok (VString (ComposerArgument.name a))).
  change (get (ComposerArgument.toValue a) (str "description"))
    with (Ok (VString (ComposerArgument.description a))).
  change (get (ComposerArgument.toValue a) (str "is_required"))
    with (Ok (VBool (ComposerArgument.is_required a))).
  change (get (ComposerArgument.toValue a) (str "is_array"))
    with (Ok (VBool (ComposerArgument.is_array a))).
  change (get (ComposerCommand.toValue c) (str "name"))
    with (Ok (VString (ComposerCommand.name c))).
  cbn [bind].
  destruct (ComposerArgument.default a) as [|s|l];
    cbn [ComposerArgument.defaultToValue ToBoolean Array_isArray].
  - cbn [bind]. eauto.
  - destruct (negb (length s =? 0)%nat); cbn [bind]; eauto.
  - destruct (get_not_nullish (VArray (map VString l)) (indexKey 0))
      as [x ->]; try discriminate.
    cbn [bind]. eauto.
Qed.

Lemma optionSpec_wellformed (o : ComposerOption.t) :
  exists s, optionSpec (ComposerOption.toValue o) = Ok s.
Proof.
  unfold optionSpec.
  change (get (ComposerOption.toValue o) (str "name"))
    with (Ok (VString (ComposerOption.name o))).
  change (get (ComposerOption.toValue o) (str "shortcut"))
    with (Ok (VString (ComposerOption.shortcut o))).
  change (get (ComposerOption.toValue o) (str "description"))
    with (Ok (VString (ComposerOption.description o))).
  change (get (ComposerOption.toValue o) (str "is_value_required"))
    with (Ok (VBool (ComposerOption.is_value_required o))).
  change (get (ComposerOption.toValue o) (str "accept_value"))
    with (Ok (VBool (ComposerOption.accept_value o))).
  cbn [bind callTrim]. eauto.
Qed.

Lemma subcommandOfCommand_wellformed (c : ComposerCommand.t) :
  exists s,
    subcommandOfCommand (ComposerCommand.toValue c) = Ok s
    /\ Fig.Subcommand.name s = VString (ComposerCommand.name c).
Proof.
  set (d := ComposerCommand.definition c).
  set (arguments :=
         VObject (map (fun kv => (fst kv, ComposerArgument.toValue (snd kv)))
                      (ComposerCommandDefinition.arguments d))).
  set (options :=
         VObject (map (fun kv => (fst kv, ComposerOption.toValue (snd kv)))
                      (ComposerCommandDefinition.options d))).
  assert (Hdef : get (ComposerCommand.toValue c) (str "definition")
                 = Ok (ComposerCommandDefinition.toValue d)) by reflexivity.
  assert (Hargs : get (ComposerCommandDefinition.toValue d) (str "arguments")
                  = Ok arguments) by reflexivity.
  assert (Hopts : get (ComposerCommandDefinition.toValue d) (str "options")
                  = Ok options) by reflexivity.
  destruct (mapM_total (argOfKey (ComposerCommand.toValue c))
              (map fst (ComposerCommandDefinition.arguments d)))
    as [args Hmapa].
  { intros k Hk. unfold argOfKey. rewrite Hdef; cbn [bind].
    rewrite Hargs; cbn [bind]. unfold arguments, get, ownProperties.
    destruct (lookup_entries ComposerArgument.toValue _ _ Hk) as [a ->].
    cbn [bind]. apply argSpec_wellformed. }
  destruct (mapM_total (optionOfKey (ComposerCommand.toValue c))
              (map fst (ComposerCommandDefinition.options d)))
    as [opts Hmapo].
  { intros k Hk. unfold optionOfKey. rewrite Hdef; cbn [bind].
    rewrite Hopts; cbn [bind]. unfold options, get, ownProperties.
    destruct (lookup_entries ComposerOption.toValue _ _ Hk) as [o ->].
    cbn [bind]. apply optionSpec_wellformed. }
  unfold subcommandOfCommand.
  change (get (ComposerCommand.toValue c) (str "name"))
    with (Ok (VString (ComposerCommand.name c))).
  change (get (ComposerCommand.toValue c) (str "description"))
    with (Ok (VString (ComposerCommand.description c))).
  rewrite Hdef; cbn [bind]. rewrite Hargs, Hopts; cbn [bind].
  unfold arguments at 1, options at 1, Object_keys, ownProperties.
  rewrite !keys_entries. cbn [bind]. rewrite Hmapa, Hmapo. cbn [bind].
  eexists; split; reflexivity.
Qed.

(** ** The entry point and the search generator *)

Section HostProperties.

Variable JSON_parse : jsstring -> option value.

Lemma tryBlock_returns (jsonList symfonyLock : jsstring)
    (data commands : value) (iteration : list value)
    (built : list Fig.Subcommand.t) :
  JSON_parse jsonList = Some data ->
  get data (str "commands") = Ok commands ->
  iterate commands = Ok iteration ->
  Forall2 (fun c s => subcommandOfCommand c = Ok s) iteration built ->
  tryBlock JSON_parse jsonList symfonyLock []
  = (Ok tt,
     built ++ (if endsWith symfonyLock noSuchFile
               then []
               else [recipesSubcommand; recipesInstallSubcommand])).
Proof.
  intros Hparse Hget Hiter Hall.
  unfold tryBlock, callJSON_parse, andThen at 1 2 3 4, pure at 1 2 3.
  rewrite Hparse, Hget, Hiter, (forOf_all _ _ Hall). simpl app at 1.
  destruct (endsWith symfonyLock noSuchFile); simpl.
  - unfold pure. rewrite app_nil_r. reflexivity.
  - unfold andThen, push. rewrite <- app_assoc. reflexivity.
Qed.

Lemma tryBlock_throws_in_loop (jsonList symfonyLock : jsstring)
    (data commands failing : value) (done rest : list value)
    (built : list Fig.Subcommand.t) (e : exn) :
  JSON_parse jsonList = Some data ->
  get data (str "commands") = Ok commands ->
  iterate commands = Ok (done ++ failing :: rest) ->
  Forall2 (fun c s => subcommandOfCommand c = Ok s) done built ->
  subcommandOfCommand failing = Throw e ->
  tryBlock JSON_parse jsonList symfonyLock [] = (Throw e, built).
Proof.
  intros Hparse Hget Hiter Hdone Hfail.
  unfold tryBlock, callJSON_parse, andThen at 1 2 3 4, pure at 1 2 3.
  rewrite Hparse, Hget, Hiter, (forOf_throw _ _ _ _ _ Hdone Hfail).
  reflexivity.
Qed.

Lemma generateSpec_unfold (tokens : list jsstring)
    (executeShellCommand : jsstring -> Result jsstring)
    (jsonList symfonyLock : jsstring)
    (outcome : Result unit) (subcommands : list Fig.Subcommand.t) :
  executeShellCommand (str "composer list --format=json") = Ok jsonList ->
  executeShellCommand (str "file symfony.lock") = Ok symfonyLock ->
  tryBlock JSON_parse jsonList symfonyLock [] = (outcome, subcommands) ->
  generateSpec JSON_parse tokens executeShellCommand
  = Ok (match outcome with Throw err => [err] | Ok _ => [] end,
        {| Fig.Spec.name := lit "composer";
           Fig.Spec.subcommands := subcommands |}).
Proof.
  intros Hlist Hlock Htry. unfold generateSpec.
  rewrite Hlist; cbn [bind]. rewrite Hlock; cbn [bind]. rewrite Htry.
  reflexivity.
Qed.

(** C1, as the code has it: when an exception is raised in the [try]
    block, [generateSpec] logs it and returns the tree with the
    subcommands pushed until then: none when [JSON.parse] throws or the
    command list cannot be read or iterated, and otherwise the
    subcommands of the commands before the one whose transformation
    throws, in catalog order; the two recipe subcommands are not in
    it. *)
Theorem generateSpec_exception_keeps_built (tokens : list jsstring)
    (executeShellCommand : jsstring -> Result jsstring)
    (jsonList symfonyLock : jsstring) :
  executeShellCommand (str "composer list --format=json") = Ok jsonList ->
  executeShellCommand (str "file symfony.lock") = Ok symfonyLock ->
  (JSON_parse jsonList = None ->
   generateSpec JSON_parse tokens executeShellCommand
   = Ok ([SyntaxError],
         {| Fig.Spec.name := lit "composer"; Fig.Spec.subcommands := [] |}))
  /\ (forall data e,
        JSON_parse jsonList = Some data ->
        (commands <- get data (str "commands") ;; iterate commands)
        = Throw e ->
        generateSpec JSON_parse tokens executeShellCommand
        = Ok ([e],
              {| Fig.Spec.name := lit "composer";
                 Fig.Spec.subcommands := [] |}))
  /\ (forall data commands done failing rest built e,
        JSON_parse jsonList = Some data ->
        get data (str "commands") = Ok commands ->
        iterate commands = Ok (done ++ failing :: rest) ->
        Forall2 (fun c s => subcommandOfCommand c = Ok s) done built ->
        subcommandOfCommand failing = Throw e ->
        generateSpec JSON_parse tokens executeShellCommand
        = Ok ([e],
              {| Fig.Spec.name := lit "composer";
                 Fig.Spec.subcommands := built |})).
Proof.
  intros Hlist Hlock. repeat split.
  - intros Hparse.
    apply (generateSpec_unfold _ _ _ _ (Throw SyntaxError) [] Hlist Hlock).
    unfold tryBlock, callJSON_parse, andThen, pure. rewrite Hparse.
    reflexivity.
  - intros data e Hparse Hthrow.
    apply (generateSpec_unfold _ _ _ _ (Throw e) [] Hlist Hlock).
    unfold tryBlock, callJSON_parse, andThen at 1 2 3, pure at 1 2 3.
    rewrite Hparse.
    destruct (get data (str "commands")) as [commands|e']; simpl in Hthrow.
    + rewrite Hthrow. reflexivity.
    + congruence.
  - intros data commands done failing rest built e
           Hparse Hget Hiter Hdone Hfail.
    apply (generateSpec_unfold _ _ _ _ (Throw e) built Hlist Hlock).
    eapply tryBlock_throws_in_loop; eassumption.
Qed.

End HostProperties.

(** ** The properties on the examples *)

Lemma exampleBranch_emitted :
  EmittedArg (ComposerCommand.toValue exampleCommand)
             (ComposerArgument.toValue exampleBranch) exampleBranchSpec.
Proof. eapply emitted_arg with (i := 1%nat); reflexivity. Qed.

Lemma examplePackages_emitted :
  EmittedArg (ComposerCommand.toValue exampleCommand)
             (ComposerArgument.toValue examplePackages) examplePackagesSpec.
Proof. eapply emitted_arg with (i := 0%nat); reflexivity. Qed.

Lemma exampleOptimize_emitted :
  EmittedOption (ComposerCommand.toValue exampleCommand)
                (ComposerOption.toValue exampleOptimize) exampleOptimizeSpec.
Proof. eapply emitted_option with (i := 1%nat); reflexivity. Qed.

Lemma exampleSort_emitted :
  EmittedOption (ComposerCommand.toValue exampleCommand)
                (ComposerOption.toValue exampleSort) exampleSortSpec.
Proof. eapply emitted_option with (i := 2%nat); reflexivity. Qed.

(** C1 as stated fails: the second command of [exampleBroken] is [null],
    its transformation throws a [TypeError], which is logged, and the
    returned tree still has the subcommand of the first command. *)
Lemma generateSpec_partial_list :
  exists tree,
    generateSpec exampleJSON_parse []
      (exampleShell exampleBrokenText (str "symfony.lock: ASCII text"))
    = Ok ([TypeError], tree)
    /\ map Fig.Subcommand.name (Fig.Spec.subcommands tree) = [lit "require"]
    /\ Fig.Spec.subcommands tree <> [].
Proof.
  eexists; split; [reflexivity|]. split; [reflexivity | discriminate].
Qed.

Lemma generateSpec_exception_keeps_built_witness :
  generateSpec exampleJSON_parse []
    (exampleShell exampleBrokenText (str "symfony.lock: ASCII text"))
  = Ok ([TypeError],
        {| Fig.Spec.name := lit "composer";
           Fig.Spec.subcommands :=
             [ {| Fig.Subcommand.name := lit "require";
                  Fig.Subcommand.description := lit "d";
                  Fig.Subcommand.icon := VString composerIcon;
                  Fig.Subcommand.args := Multiple [];
                  Fig.Subcommand.options := [] |} ] |}).
Proof.
  destruct (generateSpec_exception_keeps_built exampleJSON_parse []
              (exampleShell exampleBrokenText
                 (str "symfony.lock: ASCII text"))
              exampleBrokenText (str "symfony.lock: ASCII text")
              eq_refl eq_refl)
    as (_ & _ & Hloop).
  refine (Hloop exampleBroken _ [_] VNull [] [_] TypeError
            eq_refl eq_refl eq_refl _ eq_refl).
  constructor; [reflexivity | constructor].
Defined.

Lemma generators_by_command_name_witness :
  (Fig.Arg.generators exampleBranchSpec = Some (Single searchGenerator)
   <-> lit "require" = lit "require")
  /\ (Fig.Arg.generators exampleBranchSpec = Some (Single packagesGenerator)
      <-> lit "require" = lit "update" \/ lit "require" = lit "remove")
  /\ (Fig.Arg.generators exampleBranchSpec = Some (Multiple [])
      <-> lit "require" <> lit "require" /\ lit "require" <> lit "update"
          /\ lit "require" <> lit "remove").
Proof.
  apply (generators_by_command_name
           (ComposerCommand.toValue exampleCommand)
           (ComposerArgument.toValue exampleBranch) (lit "require")
           exampleBranchSpec exampleBranch_emitted).
  reflexivity.
Defined.

Lemma default_resolution_witness :
  Fig.Arg.default exampleBranchSpec = lit "main".
Proof.
  apply (default_resolution
           (ComposerCommand.toValue exampleCommand)
           (ComposerArgument.toValue exampleBranch) (VArray [lit "main"])
           exampleBranchSpec exampleBranch_emitted eq_refl).
  reflexivity.
Defined.

Lemma empty_array_default_witness :
  Fig.Arg.default examplePackagesSpec = VUndefined
  /\ ToBoolean (VArray []) = true.
Proof.
  apply (empty_array_default
           (ComposerCommand.toValue exampleCommand)
           (ComposerArgument.toValue examplePackages)
           examplePackagesSpec examplePackages_emitted).
  reflexivity.
Defined.

Lemma isRequired_is_value_required_witness :
  Fig.Option.isRequired exampleSortSpec = VBool true.
Proof.
  apply (isRequired_is_value_required
           (ComposerCommand.toValue exampleCommand)
           (ComposerOption.toValue exampleSort) (VBool true)
           exampleSortSpec exampleSort_emitted).
  reflexivity.
Defined.

Lemma aliases_of_option_witness :
  Fig.Option.name exampleOptimizeSpec
  = VArray [lit "--optimize-autoloader"; lit "o"].
Proof.
  apply (aliases_of_option
           (ComposerCommand.toValue exampleCommand)
           (ComposerOption.toValue exampleOptimize)
           (lit "--optimize-autoloader") (str "o")
           exampleOptimizeSpec exampleOptimize_emitted eq_refl eq_refl).
  reflexivity.
Defined.

Lemma shortcut_alias_untrimmed_witness :
  trim (str " o ") = str "o"
  /\ exists name,
       get (ComposerOption.toValue exampleSort) (str "name") = Ok name
       /\ Fig.Option.name exampleSortSpec = VArray [name; lit " o "].
Proof.
  split; [reflexivity|].
  apply (shortcut_alias_untrimmed
           (ComposerCommand.toValue exampleCommand)
           (ComposerOption.toValue exampleSort) (str " o ")
           exampleSortSpec exampleSort_emitted eq_refl).
  discriminate.
Defined.

(** * Further properties of the module *)

(** ** Property reads and the exceptions of the transformation *)

Lemma get_property (v : value) (k : jsstring) :
  get v k = if nullish v then Throw TypeError else Ok (property v k).
Proof. destruct v; reflexivity. Qed.

Lemma get_Ok_property (v x : value) (k : jsstring) :
  get v k = Ok x -> nullish v = false /\ x = property v k.
Proof.
  rewrite get_property. destruct (nullish v); [discriminate|].
  intros H; inv H; auto.
Qed.

Lemma get_Throw (v : value) (k : jsstring) (e : exn) :
  get v k = Throw e -> e = TypeError.
Proof.
  rewrite get_property. destruct (nullish v); [|discriminate].
  congruence.
Qed.

Lemma Object_keys_Throw (v : value) (e : exn) :
  Object_keys v = Throw e -> e = TypeError.
Proof. destruct v; simpl; congruence. Qed.

Lemma Object_keys_not_nullish (v : value) :
  nullish v = false -> Object_keys v = Ok (map fst (ownProperties v)).
Proof. destruct v; simpl; congruence. Qed.

Lemma Object_keys_Ok (v : value) (keys : list jsstring) :
  Object_keys v = Ok keys ->
  nullish v = false /\ keys = map fst (ownProperties v).
Proof. destruct v; simpl; intros H; inv H; auto. Qed.

Lemma bind_Throw {A B} (m : Result A) (k : A -> Result B) (e : exn) :
  bind m k = Throw e -> m = Throw e \/ exists a, m = Ok a /\ k a = Throw e.
Proof. destruct m as [a|e']; simpl; [eauto | intros H; inv H; auto]. Qed.

Lemma mapM_Throw {A B} (f : A -> Result B) (l : list A) (e : exn) :
  mapM f l = Throw e -> exists x, In x l /\ f x = Throw e.
Proof.
  induction l as [|x l IH]; simpl; [discriminate|].
  intros H. apply bind_Throw in H as [H | (y & Hy & H)].
  - exists x; auto.
  - apply bind_Throw in H as [H | (ys & _ & H)]; [|discriminate].
    destruct (IH H) as (x' & Hin & Hx'). exists x'; auto.
Qed.

(** Follows a chain of binds to the call that throws; the calls of
    [get] and [Object.keys] throw a [TypeError]. *)
Ltac throw_inv H :=
  repeat match type of H with
         | bind _ _ = Throw _ =>
             apply bind_Throw in H as [H | (? & ? & H)];
             [ solve [ eapply get_Throw; eassumption
                     | eapply Object_keys_Throw; eassumption ]
             | cbv beta in H ]
         end.

Lemma argSpec_Throw (command arg : value) (e : exn) :
  argSpec command arg = Throw e -> e = TypeError.
Proof.
  unfold argSpec; intros H.
  apply bind_Throw in H as [H | (d & _ & H)];
    [eapply get_Throw; eassumption|].
  apply bind_Throw in H as [H | (d' & _ & H)].
  - destruct (ToBoolean d); [|discriminate].
    destruct (Array_isArray d); [|discriminate].
    eapply get_Throw; eassumption.
  - throw_inv H. discriminate.
Qed.

Lemma optionSpec_Throw (option : value) (e : exn) :
  optionSpec option = Throw e -> e = TypeError.
Proof.
  unfold optionSpec; intros H.
  apply bind_Throw in H as [H | (name & _ & H)];
    [eapply get_Throw; eassumption|].
  apply bind_Throw in H as [H | (shortCut & _ & H)];
    [eapply get_Throw; eassumption|].
  apply bind_Throw in H as [H | (trimmed & _ & H)].
  - destruct shortCut; simpl in H; congruence.
  - throw_inv H. discriminate.
Qed.

Lemma subcommandOfCommand_Throw (command : value) (e : exn) :
  subcommandOfCommand command = Throw e -> e = TypeError.
Proof.
  unfold subcommandOfCommand; intros H.
  do 5 (apply bind_Throw in H as [H | (? & ? & H)];
        [ solve [ eapply get_Throw; eassumption
                | eapply Object_keys_Throw; eassumption ]
        | cbv beta in H ]).
  apply bind_Throw in H as [H | (args & _ & H)].
  { apply mapM_Throw in H as (k & _ & H). unfold argOfKey in H.
    throw_inv H. eapply argSpec_Throw; eassumption. }
  do 3 (apply bind_Throw in H as [H | (? & ? & H)];
        [ solve [ eapply get_Throw; eassumption
                | eapply Object_keys_Throw; eassumption ]
        | cbv beta in H ]).
  apply bind_Throw in H as [H | (opts & _ & H)]; [|discriminate].
  apply mapM_Throw in H as (k & _ & H). unfold optionOfKey in H.
  throw_inv H. eapply optionSpec_Throw; eassumption.
Qed.

(** ** What the callbacks return and when they throw *)

Lemma argSpec_not_nullish (command arg : value) :
  nullish arg = false -> nullish command = false ->
  argSpec command arg
  = Ok {| Fig.Arg.name := property arg (str "name");
          Fig.Arg.description := property arg (str "description");
          Fig.Arg.isOptional :=
            VBool (negb (ToBoolean (property arg (str "is_required"))));
          Fig.Arg.default :=
            (let default := property arg (str "default") in
             if ToBoolean default
             then if Array_isArray default
                  then property default (indexKey 0)
                  else default
             else VUndefined);
          Fig.Arg.isVariadic := property arg (str "is_array");
          Fig.Arg.generators :=
            Some (if strictEqualsString (property command (str "name"))
                       (str "require")
                  then Single searchGenerator
                  else if includes packagesGeneratorTriggersCommands
                            (property command (str "name"))
                       then Single packagesGenerator
                       else Multiple []);
          Fig.Arg.template := VUndefined |}.
Proof.
  intros Harg Hcommand. unfold argSpec.
  rewrite !get_property, Harg, Hcommand. cbn [bind].
  destruct (ToBoolean (property arg (str "default"))) eqn:Htrue;
    [|reflexivity].
  destruct (Array_isArray (property arg (str "default"))) eqn:Harr;
    [|reflexivity].
  rewrite get_property.
  destruct (property arg (str "default")); try discriminate. reflexivity.
Qed.

Lemma argSpec_Ok (command arg : value) (a : Fig.Arg.t) :
  argSpec command arg = Ok a -> nullish arg = false /\ nullish command = false.
Proof.
  unfold argSpec; intros H. bind_inv H.
  apply get_Ok_property in E as [Harg _].
  apply get_Ok_property in E5 as [Hcommand _]. auto.
Qed.

Lemma optionSpec_string_shortcut (option : value) (s : jsstring) :
  nullish option = false ->
  property option (str "shortcut") = VString s ->
  optionSpec option
  = Ok {| Fig.Option.name :=
            VArray (if Nat.ltb 0 (length (trim s))
                    then [property option (str "name"); VString s]
                    else [property option (str "name")]);
          Fig.Option.description := property option (str "description");
          Fig.Option.isRequired :=
            property option (str "is_value_required");
          Fig.Option.args :=
            (if ToBoolean (property option (str "accept_value"))
             then Some Fig.Arg.empty else None);
          Fig.Option.exclusiveOn := VUndefined;
          Fig.Option.isDangerous := VUndefined |}.
Proof.
  intros Hoption Hshort. unfold optionSpec.
  rewrite !get_property, Hoption. cbn [bind]. rewrite Hshort.
  reflexivity.
Qed.

Lemma optionSpec_Ok (option : value) (o : Fig.Option.t) :
  optionSpec option = Ok o ->
  nullish option = false
  /\ exists s, property option (str "shortcut") = VString s.
Proof.
  unfold optionSpec; intros H. bind_inv H.
  apply get_Ok_property in E0 as [Hoption ->]. split; [assumption|].
  destruct (property option (str "shortcut")); try discriminate. eauto.
Qed.

(** The Option-Spec of an option is built exactly when the option is
    neither [null] nor [undefined] and its [shortcut] is a string;
    otherwise the callback throws a [TypeError]. *)
Theorem optionSpec_returns_iff (option : value) :
  ((exists o, optionSpec option = Ok o)
   <-> nullish option = false
       /\ exists s, property option (str "shortcut") = VString s)
  /\ ((forall o, optionSpec option <> Ok o)
      -> optionSpec option = Throw TypeError).
Proof.
  split.
  - split.
    + intros [o H]. eapply optionSpec_Ok; eassumption.
    + intros (Hoption & s & Hs).
      rewrite (optionSpec_string_shortcut _ _ Hoption Hs). eauto.
  - intros Hno. destruct (optionSpec option) as [o|e] eqn:E.
    + elim (Hno o); reflexivity.
    + apply optionSpec_Throw in E as ->. reflexivity.
Qed.

(** The Argument-Spec of an argument of a command is built exactly when
    neither the argument nor the command is [null] or [undefined], whatever
    fields the argument has; otherwise the callback throws a
    [TypeError]. *)
Theorem argSpec_returns_iff (command arg : value) :
  ((exists a, argSpec command arg = Ok a)
   <-> nullish arg = false /\ nullish command = false)
  /\ ((forall a, argSpec command arg <> Ok a)
      -> argSpec command arg = Throw TypeError).
Proof.
  split.
  - split.
    + intros [a H]. eapply argSpec_Ok; eassumption.
    + intros [Harg Hcommand]. rewrite argSpec_not_nullish by assumption.
      eauto.
  - intros Hno. destruct (argSpec command arg) as [a|e] eqn:E.
    + elim (Hno a); reflexivity.
    + apply argSpec_Throw in E as ->. reflexivity.
Qed.

(** For every argument of a command, the Argument-Spec is optional
    exactly when [is_required] is falsy or missing, and its name,
    description and variadic flag are the argument's [name],
    [description] and [is_array] as they are read, [undefined] when
    missing; it has generators and no template. *)
Theorem argument_fields (command arg : value) (a : Fig.Arg.t) :
  EmittedArg command arg a ->
  Fig.Arg.name a = property arg (str "name")
  /\ Fig.Arg.description a = property arg (str "description")
  /\ Fig.Arg.isOptional a
     = VBool (negb (ToBoolean (property arg (str "is_required"))))
  /\ Fig.Arg.isVariadic a = property arg (str "is_array")
  /\ Fig.Arg.generators a <> None
  /\ Fig.Arg.template a = VUndefined.
Proof.
  intros Hemit. apply EmittedArg_argSpec in Hemit.
  destruct (argSpec_Ok _ _ _ Hemit) as [Harg Hcommand].
  rewrite (argSpec_not_nullish _ _ Harg Hcommand) in Hemit.
  injection Hemit as <-. cbn.
  repeat split; discriminate.
Qed.

(** For every option of a command, the Option-Spec has the empty
    argument placeholder exactly when [accept_value] is truthy and no
    argument otherwise; its description is the option's, and it is never
    exclusive or dangerous. *)
Theorem option_fields (command option : value) (o : Fig.Option.t) :
  EmittedOption command option o ->
  Fig.Option.description o = property option (str "description")
  /\ (ToBoolean (property option (str "accept_value")) = true
      -> Fig.Option.args o = Some Fig.Arg.empty)
  /\ (ToBoolean (property option (str "accept_value")) = false
      -> Fig.Option.args o = None)
  /\ Fig.Option.exclusiveOn o = VUndefined
  /\ Fig.Option.isDangerous o = VUndefined.
Proof.
  intros Hemit. apply EmittedOption_optionSpec in Hemit.
  destruct (optionSpec_Ok _ _ Hemit) as (Hoption & s & Hs).
  rewrite (optionSpec_string_shortcut _ _ Hoption Hs) in Hemit.
  injection Hemit as <-. cbn [Fig.Option.description Fig.Option.args
                              Fig.Option.exclusiveOn Fig.Option.isDangerous].
  repeat split; intros ->; reflexivity.
Qed.

(** ** The subcommand of a command *)

Lemma argOfKey_property (command : value) (argKey : jsstring) :
  nullish command = false ->
  nullish (property command (str "definition")) = false ->
  nullish (property (property command (str "definition")) (str "arguments"))
  = false ->
  argOfKey command argKey
  = argSpec command
      (property (property (property command (str "definition"))
                          (str "arguments")) argKey).
Proof.
  intros Hc Hd Ha. unfold argOfKey.
  rewrite get_property, Hc; cbn [bind].
  rewrite get_property, Hd; cbn [bind].
  rewrite get_property, Ha; cbn [bind]. reflexivity.
Qed.

Lemma optionOfKey_property (command : value) (optionKey : jsstring) :
  nullish command = false ->
  nullish (property command (str "definition")) = false ->
  nullish (property (property command (str "definition")) (str "options"))
  = false ->
  optionOfKey command optionKey
  = optionSpec
      (property (property (property command (str "definition"))
                          (str "options")) optionKey).
Proof.
  intros Hc Hd Ho. unfold optionOfKey.
  rewrite get_property, Hc; cbn [bind].
  rewrite get_property, Hd; cbn [bind].
  rewrite get_property, Ho; cbn [bind]. reflexivity.
Qed.

Lemma Forall2_In_left {A B} (P : A -> B -> Prop) (l : list A) (l' : list B)
    (x : A) :
  Forall2 P l l' -> In x l -> exists y, In y l' /\ P x y.
Proof.
  induction 1 as [|x0 y0 l l' H0 _ IH]; intros Hin; [destruct Hin|].
  destruct Hin as [-> | Hin].
  - exists y0; split; [left; reflexivity | assumption].
  - destruct (IH Hin) as (y & Hy & HP). exists y; split; [right|]; assumption.
Qed.

(** What a subcommand that was built says about its command. *)
Lemma subcommandOfCommand_Ok (command : value) (sub : Fig.Subcommand.t) :
  subcommandOfCommand command = Ok sub ->
  let definition := property command (str "definition") in
  let arguments := property definition (str "arguments") in
  let options := property definition (str "options") in
  nullish command = false /\ nullish definition = false
  /\ nullish arguments = false /\ nullish options = false
  /\ exists args,
       mapM (argOfKey command) (map fst (ownProperties arguments)) = Ok args
       /\ mapM (optionOfKey command) (map fst (ownProperties options))
          = Ok (Fig.Subcommand.options sub)
       /\ sub = {| Fig.Subcommand.name := property command (str "name");
                   Fig.Subcommand.description :=
                     property command (str "description");
                   Fig.Subcommand.icon := VString composerIcon;
                   Fig.Subcommand.args := Multiple args;
                   Fig.Subcommand.options := Fig.Subcommand.options sub |}.
Proof.
  intros H. unfold subcommandOfCommand in H. bind_inv H.
  apply get_Ok_property in E as [Hc ->].
  apply get_Ok_property in E0 as [_ ->].
  apply get_Ok_property in E1 as [_ ->].
  apply get_Ok_property in E2 as [Hd ->].
  apply Object_keys_Ok in E3 as [Ha ->].
  apply get_Ok_property in E5 as [_ ->].
  apply get_Ok_property in E6 as [_ ->].
  apply Object_keys_Ok in E7 as [Ho ->].
  injection H as <-. cbn.
  repeat (split; [assumption|]). exists x4. auto.
Qed.

(** For every command that is transformed, the subcommand has the
    command's name and description as they are read and the Composer
    icon, its arguments are an array with one Argument-Spec for each key
    of [definition.arguments], and it has one Option-Spec for each key of
    [definition.options]. *)
Theorem subcommand_shape (command : value) (sub : Fig.Subcommand.t) :
  subcommandOfCommand command = Ok sub ->
  Fig.Subcommand.name sub = property command (str "name")
  /\ Fig.Subcommand.description sub = property command (str "description")
  /\ Fig.Subcommand.icon sub = VString composerIcon
  /\ (exists args,
        Fig.Subcommand.args sub = Multiple args
        /\ length args
           = length (ownProperties
                       (property (property command (str "definition"))
                                 (str "arguments"))))
  /\ length (Fig.Subcommand.options sub)
     = length (ownProperties
                 (property (property command (str "definition"))
                           (str "options"))).
Proof.
  intros H. apply subcommandOfCommand_Ok in H.
  destruct H as (_ & _ & _ & _ & args & Hargs & Hopts & Hsub).
  apply mapM_Forall2, Forall2_length in Hargs, Hopts.
  rewrite length_map in Hargs, Hopts.
  rewrite Hsub;
    cbn [Fig.Subcommand.name Fig.Subcommand.description Fig.Subcommand.icon
         Fig.Subcommand.args Fig.Subcommand.options].
  repeat split; auto.
  exists args; split; [reflexivity | symmetry; assumption].
Qed.

(** A command is transformed exactly when the command, its
    [definition], [definition.arguments] and [definition.options] are
    neither [null] nor [undefined], no argument is [null], and every
    option is an object (or another non-null value) with a string
    [shortcut]; in every other case the transformation throws a
    [TypeError]. *)
Theorem subcommandOfCommand_returns_iff (command : value) :
  let definition := property command (str "definition") in
  let arguments := property definition (str "arguments") in
  let options := property definition (str "options") in
  ((exists sub, subcommandOfCommand command = Ok sub)
   <-> nullish command = false /\ nullish definition = false
       /\ nullish arguments = false /\ nullish options = false
       /\ Forall (fun k => nullish (property arguments k) = false)
                 (map fst (ownProperties arguments))
       /\ Forall (fun k =>
                    nullish (property options k) = false
                    /\ exists s,
                         property (property options k) (str "shortcut")
                         = VString s)
                 (map fst (ownProperties options)))
  /\ ((forall sub, subcommandOfCommand command <> Ok sub)
      -> subcommandOfCommand command = Throw TypeError).
Proof.
  cbv zeta. split; [split|].
  - intros [sub H]. apply subcommandOfCommand_Ok in H. cbv zeta in H.
    destruct H as (Hc & Hd & Ha & Ho & args & Hargs & Hopts & _).
    repeat (split; [assumption|]). split.
    + apply mapM_Forall2 in Hargs. apply Forall_forall; intros k Hk.
      destruct (Forall2_In_left _ _ _ _ Hargs Hk) as (a & _ & Hcall).
      rewrite argOfKey_property in Hcall by assumption.
      apply argSpec_Ok in Hcall as [Hk' _]. exact Hk'.
    + apply mapM_Forall2 in Hopts. apply Forall_forall; intros k Hk.
      destruct (Forall2_In_left _ _ _ _ Hopts Hk) as (o & _ & Hcall).
      rewrite optionOfKey_property in Hcall by assumption.
      eapply optionSpec_Ok; eassumption.
  - intros (Hc & Hd & Ha & Ho & Hargs & Hopts).
    destruct (mapM_total (argOfKey command)
                (map fst (ownProperties
                            (property (property command (str "definition"))
                                      (str "arguments")))))
      as [args Eargs].
    { intros k Hk. rewrite argOfKey_property by assumption.
      rewrite Forall_forall in Hargs.
      rewrite (argSpec_not_nullish _ _ (Hargs k Hk) Hc); eauto. }
    destruct (mapM_total (optionOfKey command)
                (map fst (ownProperties
                            (property (property command (str "definition"))
                                      (str "options")))))
      as [opts Eopts].
    { intros k Hk. rewrite optionOfKey_property by assumption.
      rewrite Forall_forall in Hopts.
      destruct (Hopts k Hk) as (Hk' & s & Hs).
      rewrite (optionSpec_string_shortcut _ _ Hk' Hs); eauto. }
    unfold subcommandOfCommand.
    rewrite !(get_property command), Hc; cbn [bind].
    rewrite !(get_property (property command (str "definition"))), Hd;
      cbn [bind].
    rewrite (Object_keys_not_nullish _ Ha); cbn [bind].
    rewrite Eargs; cbn [bind].
    rewrite (Object_keys_not_nullish _ Ho); cbn [bind].
    rewrite Eopts; cbn [bind]. eauto.
  - intros Hno. destruct (subcommandOfCommand command) as [sub|e] eqn:E.
    + elim (Hno sub); reflexivity.
    + apply subcommandOfCommand_Throw in E as ->. reflexivity.
Qed.

(** ** The outcomes of [generateSpec] *)

Lemma iterate_Throw (v : value) (e : exn) :
  iterate v = Throw e -> e = TypeError.
Proof. destruct v; simpl; congruence. Qed.

(** The loop either transforms every command or stops at the first one
    that throws. *)
Lemma forOf_outcome (commands : list value)
    (subcommands : list Fig.Subcommand.t) :
  exists built,
    Forall (fun s => exists c, subcommandOfCommand c = Ok s) built
    /\ (forOf commands loopBody subcommands = (Ok tt, subcommands ++ built)
        \/ forOf commands loopBody subcommands
           = (Throw TypeError, subcommands ++ built)).
Proof.
  revert subcommands.
  induction commands as [|c commands IH]; intros subcommands.
  - exists []; split; [constructor|]. left. simpl. unfold pure.
    rewrite app_nil_r. reflexivity.
  - simpl. unfold andThen, loopBody at 1 3, andThen, pure, push.
    destruct (subcommandOfCommand c) as [s|e] eqn:E.
    + destruct (IH (subcommands ++ [s])) as (built & Hbuilt & H).
      exists (s :: built); split; [constructor; eauto|].
      rewrite <- app_assoc in H. exact H.
    + apply subcommandOfCommand_Throw in E as ->.
      exists []; split; [constructor|]. right.
      rewrite app_nil_r. reflexivity.
Qed.

Lemma recipes_not_from_catalog (built : list Fig.Subcommand.t) :
  Forall (fun s => exists c, subcommandOfCommand c = Ok s) built ->
  ~ In recipesSubcommand built /\ ~ In recipesInstallSubcommand built.
Proof.
  intros H; rewrite Forall_forall in H.
  split; intros Hin; destruct (H _ Hin) as [c Hc];
    apply subcommand_shape in Hc as (_ & _ & _ & (args & Hargs & _) & _);
    discriminate.
Qed.

Section EntryPoint.

Variable JSON_parse : jsstring -> option value.

Lemma tryBlock_cases (jsonList symfonyLock : jsstring) :
  tryBlock JSON_parse jsonList symfonyLock []
  = match JSON_parse jsonList with
    | None => (Throw SyntaxError, [])
    | Some data =>
        match (commands <- get data (str "commands") ;; iterate commands) with
        | Throw e => (Throw e, [])
        | Ok iteration =>
            match forOf iteration loopBody [] with
            | (Ok _, built) =>
                (Ok tt,
                 built ++ (if endsWith symfonyLock noSuchFile
                           then []
                           else [recipesSubcommand;
                                 recipesInstallSubcommand]))
            | (Throw e, built) => (Throw e, built)
            end
        end
    end.
Proof.
  unfold tryBlock, callJSON_parse, andThen at 1 2 3 4, pure at 1 2 3.
  destruct (JSON_parse jsonList) as [data|]; [|reflexivity].
  destruct (get data (str "commands")) as [commands|e]; [|reflexivity].
  cbn [bind]. destruct (iterate commands) as [iteration|e]; [|reflexivity].
  destruct (forOf iteration loopBody []) as [[[]|e] built]; [|reflexivity].
  destruct (endsWith symfonyLock noSuchFile); simpl.
  - unfold pure. rewrite app_nil_r. reflexivity.
  - unfold andThen, push. rewrite <- app_assoc. reflexivity.
Qed.

Lemma tryBlock_outcome (jsonList symfonyLock : jsstring) :
  exists built,
    Forall (fun s => exists c, subcommandOfCommand c = Ok s) built
    /\ ((JSON_parse jsonList <> None
         /\ tryBlock JSON_parse jsonList symfonyLock []
            = (Ok tt,
               built ++ (if endsWith symfonyLock noSuchFile
                         then []
                         else [recipesSubcommand;
                               recipesInstallSubcommand])))
        \/ (JSON_parse jsonList <> None
            /\ tryBlock JSON_parse jsonList symfonyLock []
               = (Throw TypeError, built))
        \/ (JSON_parse jsonList = None /\ built = []
            /\ tryBlock JSON_parse jsonList symfonyLock []
               = (Throw SyntaxError, []))).
Proof.
  rewrite tryBlock_cases.
  destruct (JSON_parse jsonList) as [data|] eqn:Hparse.
  - destruct (commands <- get data (str "commands") ;; iterate commands)
      as [iteration|e] eqn:Hiter.
    + destruct (forOf_outcome iteration []) as (built & Hbuilt & [H | H]);
        rewrite H; simpl app; exists built; (split; [assumption|]).
      * left. split; [discriminate | reflexivity].
      * right; left. split; [discriminate | reflexivity].
    + apply bind_Throw in Hiter as [Hget | (commands & _ & Hiter)];
        [apply get_Throw in Hget as -> | apply iterate_Throw in Hiter as ->];
        (exists []; split; [constructor|]; right; left;
         split; [discriminate | reflexivity]).
  - exists []; split; [constructor|]. right; right. auto.
Qed.

(** An exception of [executeShellCommand], for either command, leaves
    [generateSpec] as it is and no tree is built.  When both
    calls return, [generateSpec] returns a tree named [composer] and logs
    at most one error: a [SyntaxError] exactly when [JSON.parse] rejects
    the catalog text, and otherwise nothing or a [TypeError]. *)
Theorem generateSpec_outcomes (tokens : list jsstring)
    (executeShellCommand : jsstring -> Result jsstring) :
  (forall e,
      executeShellCommand (str "composer list --format=json") = Throw e ->
      generateSpec JSON_parse tokens executeShellCommand = Throw e)
  /\ (forall jsonList e,
        executeShellCommand (str "composer list --format=json")
        = Ok jsonList ->
        executeShellCommand (str "file symfony.lock") = Throw e ->
        generateSpec JSON_parse tokens executeShellCommand = Throw e)
  /\ (forall jsonList symfonyLock,
        executeShellCommand (str "composer list --format=json")
        = Ok jsonList ->
        executeShellCommand (str "file symfony.lock") = Ok symfonyLock ->
        exists console tree,
          generateSpec JSON_parse tokens executeShellCommand
          = Ok (console, tree)
          /\ Fig.Spec.name tree = lit "composer"
          /\ (console = [] \/ console = [SyntaxError]
              \/ console = [TypeError])
          /\ (console = [SyntaxError] <-> JSON_parse jsonList = None)).
Proof.
  repeat split.
  - intros e H. unfold generateSpec. rewrite H. reflexivity.
  - intros jsonList e Hlist H. unfold generateSpec.
    rewrite Hlist; cbn [bind]. rewrite H. reflexivity.
  - intros jsonList symfonyLock Hlist Hlock.
    destruct (tryBlock_outcome jsonList symfonyLock)
      as (built & _ & [[Hp H] | [[Hp H] | (Hp & _ & H)]]);
      rewrite (generateSpec_unfold JSON_parse _ _ _ _ _ _ Hlist Hlock H);
      do 2 eexists; (split; [reflexivity|]); (split; [reflexivity|]).
    + split; [auto|]. split; [discriminate | congruence].
    + split; [auto|]. split; [discriminate | congruence].
    + split; [auto|]. split; auto.
Qed.

(** Whatever the catalog is, the [recipes] and [recipes:install]
    subcommands are in the returned tree exactly when nothing was logged
    and the output of [file symfony.lock] does not end with
    ["(No such file or directory)"]; they are then its last two
    subcommands, in that order. *)
Theorem recipes_in_tree (tokens : list jsstring)
    (executeShellCommand : jsstring -> Result jsstring)
    (jsonList symfonyLock : jsstring) (console : list exn)
    (tree : Fig.Spec.t) :
  executeShellCommand (str "composer list --format=json") = Ok jsonList ->
  executeShellCommand (str "file symfony.lock") = Ok symfonyLock ->
  generateSpec JSON_parse tokens executeShellCommand = Ok (console, tree) ->
  (In recipesSubcommand (Fig.Spec.subcommands tree)
   <-> console = [] /\ endsWith symfonyLock noSuchFile = false)
  /\ (In recipesInstallSubcommand (Fig.Spec.subcommands tree)
      <-> console = [] /\ endsWith symfonyLock noSuchFile = false)
  /\ (console = [] -> endsWith symfonyLock noSuchFile = false ->
      exists fromCatalog,
        Fig.Spec.subcommands tree
        = fromCatalog ++ [recipesSubcommand; recipesInstallSubcommand]
        /\ ~ In recipesSubcommand fromCatalog
        /\ ~ In recipesInstallSubcommand fromCatalog).
Proof.
  intros Hlist Hlock Hgen.
  destruct (tryBlock_outcome jsonList symfonyLock)
    as (built & Hbuilt & [[_ H] | [[_ H] | (_ & -> & H)]]);
    rewrite (generateSpec_unfold JSON_parse _ _ _ _ _ _ Hlist Hlock H)
      in Hgen;
    injection Hgen as <- <-; cbn [Fig.Spec.subcommands];
    destruct (recipes_not_from_catalog _ Hbuilt) as [Hr Hi].
  - destruct (endsWith symfonyLock noSuchFile).
    + rewrite app_nil_r. repeat split; try tauto; try discriminate;
        intros []; discriminate.
    + split; [|split].
      * split; [auto|]. intros _.
        apply in_or_app; right; left; reflexivity.
      * split; [auto|]. intros _.
        apply in_or_app; right; right; left; reflexivity.
      * intros _ _. exists built; auto.
  - repeat split; try tauto; try discriminate; intros []; discriminate.
  - simpl. repeat split; try tauto; try discriminate; intros []; discriminate.
Qed.

End EntryPoint.

(** ** [searchGenerator] *)

(** The script is empty exactly when the last token of the context is
    the empty string.  For any other last token the script is the [curl]
    command with the token put between the two fixed parts as it is, so
    two different tokens give two different scripts; with no token at all
    the token is the text [undefined]. *)
Theorem searchGenerator_script_term (context : list jsstring) :
  (searchGenerator_script context = [] <-> lastToken context = Some [])
  /\ (forall term,
        lastToken context = Some term -> term <> [] ->
        searchGenerator_script context
        = str "curl -s -H " ++ quote ++ str "Accept: application/json"
          ++ quote ++ str " " ++ quote
          ++ str "https://packagist.org/search.json?q="
          ++ term ++ str "&per_page=20" ++ quote)
  /\ (context = [] ->
      searchGenerator_script context
      = searchGenerator_script [str "undefined"])
  /\ (forall context' term term',
        lastToken context = Some term -> lastToken context' = Some term' ->
        searchGenerator_script context = searchGenerator_script context' ->
        term = term').
Proof.
  assert (Hterm : forall c term,
             lastToken c = Some term -> term <> [] ->
             searchGenerator_script c
             = str "curl -s -H " ++ quote ++ str "Accept: application/json"
               ++ quote ++ str " " ++ quote
               ++ str "https://packagist.org/search.json?q="
               ++ term ++ str "&per_page=20" ++ quote).
  { intros c term H Hne. unfold searchGenerator_script. rewrite H.
    destruct term; [congruence | reflexivity]. }
  assert (Hempty : forall c,
             searchGenerator_script c = [] <-> lastToken c = Some []).
  { intros c. unfold searchGenerator_script.
    destruct (lastToken c) as [[|x term]|]; split; intros H;
      try reflexivity; discriminate. }
  repeat split.
  - apply Hempty.
  - apply Hempty.
  - apply Hterm.
  - intros ->. reflexivity.
  - intros context' term term' H H' Heq.
    destruct term as [|x term]; destruct term' as [|x' term'].
    + reflexivity.
    + apply Hempty in H. rewrite H in Heq. symmetry in Heq.
      apply Hempty in Heq. congruence.
    + apply Hempty in H'. rewrite H' in Heq.
      apply Hempty in Heq. congruence.
    + rewrite (Hterm _ _ H), (Hterm _ _ H') in Heq by discriminate.
      repeat (apply app_inv_head in Heq).
      apply app_inv_tail in Heq.
      replace (str "https://packagist.org/search.json?q=" ++ x :: term)
        with ((str "https://packagist.org/search.json?q=") ++ x :: term)
        in Heq by reflexivity.
      exact Heq.
Qed.

Section SearchResults.

Variable JSON_parse : jsstring -> option value.

(** When the output parses to a value whose [results] is an array
    without [null] items, [postProcess] returns one suggestion for each
    item, in the order of the array, with the item's [name] and
    [description] as they are read and the package icon. *)
Theorem searchGenerator_suggestions (out : jsstring) (parsed : value)
    (items : list value) :
  JSON_parse out = Some parsed ->
  get parsed (str "results") = Ok (VArray items) ->
  Forall (fun item => nullish item = false) items ->
  searchGenerator_postProcess JSON_parse out
  = map (fun item =>
           Fig.Suggestion.mk (property item (str "name"))
                             (property item (str "description"))
                             (VString packageIcon))
        items.
Proof.
  intros Hparse Hget Hitems.
  unfold searchGenerator_postProcess, searchGenerator_tryBlock,
    callJSON_parse.
  rewrite Hparse; cbn [bind]. rewrite Hget; cbn [bind callMap].
  assert (Hmap : mapM searchSuggestion items
                 = Ok (map (fun item =>
                              Fig.Suggestion.mk
                                (property item (str "name"))
                                (property item (str "description"))
                                (VString packageIcon)) items)).
  { clear Hget. induction Hitems as [|item items Hitem _ IH]; [reflexivity|].
    cbn [mapM map]. unfold searchSuggestion at 1.
    rewrite !get_property, Hitem. cbn [bind]. rewrite IH. reflexivity. }
  rewrite Hmap. reflexivity.
Qed.

End SearchResults.

(** ** [filterRealDependencies] on values that are not mappings *)

Lemma str_digits_no_slash (u : Decimal.uint) :
  existsb (N.eqb slash) (str (NilEmpty.string_of_uint u)) = false.
Proof. induction u; simpl; auto. Qed.

Lemma keys_indexed (l : list value) (n : nat) :
  map fst (combine (map indexKey (seq n (length l))) l)
  = map indexKey (seq n (length l)).
Proof.
  revert n; induction l as [|x l IH]; intros n; simpl; [reflexivity|].
  rewrite IH. reflexivity.
Qed.

Lemma filter_index_keys (l : list value) :
  filter (wholeMatch PACKAGE_REGEXP) (map fst (indexed l)) = [].
Proof.
  unfold indexed. rewrite keys_indexed.
  induction (seq 0 (length l)) as [|i rest IH]; [reflexivity|].
  simpl. rewrite wholeMatch_PACKAGE_REGEXP. unfold slashOnOneLine.
  unfold indexKey at 1. rewrite str_digits_no_slash. exact IH.
Qed.

(** [filterRealDependencies] throws a [TypeError] on [null] and on
    [undefined], and returns no name for a value that is not a mapping: an
    array, a string, a number or a boolean. *)
Theorem filterRealDependencies_not_a_mapping :
  filterRealDependencies VNull = Throw TypeError
  /\ filterRealDependencies VUndefined = Throw TypeError
  /\ (forall elems, filterRealDependencies (VArray elems) = Ok [])
  /\ (forall s, filterRealDependencies (VString s) = Ok [])
  /\ (forall n, filterRealDependencies (VNumber n) = Ok [])
  /\ (forall b, filterRealDependencies (VBool b) = Ok []).
Proof.
  repeat split; try reflexivity.
  - intros elems. unfold filterRealDependencies; simpl.
    rewrite filter_index_keys. reflexivity.
  - intros s. unfold filterRealDependencies; simpl.
    rewrite filter_index_keys. reflexivity.
Qed.

(** ** [Object.assign] on plain objects *)

Lemma hasKey_In (k : jsstring) (props : list (jsstring * value)) :
  hasKey k props = true <-> In k (map fst props).
Proof.
  unfold hasKey. rewrite existsb_exists. split.
  - intros (k' & Hin & Heq). apply jsstring_eqb_eq in Heq. congruence.
  - intros Hin. exists k; split; [assumption | apply jsstring_eqb_refl].
Qed.

Lemma keys_replaceValue (k : jsstring) (v : value)
    (props : list (jsstring * value)) :
  map fst (replaceValue k v props) = map fst props.
Proof.
  induction props as [|[k' v'] props IH]; simpl; [reflexivity|].
  destruct (jsstring_eqb k k'); simpl; [reflexivity|].
  rewrite IH. reflexivity.
Qed.

Lemma In_insertIndex (i : N) (k k' : jsstring) (v : value)
    (props : list (jsstring * value)) :
  In k' (map fst (insertIndex i k v props))
  <-> k' = k \/ In k' (map fst props).
Proof.
  induction props as [|[k0 v0] props IH]; simpl.
  - split; intros [H | H]; auto; contradiction.
  - destruct (arrayIndex k0) as [j|]; [destruct (N.ltb j i)|]; simpl;
      rewrite ?IH; intuition congruence.
Qed.

Lemma filter_insertIndex (P : jsstring -> bool) (i : N) (k : jsstring)
    (v : value) (props : list (jsstring * value)) :
  P k = false ->
  filter P (map fst (insertIndex i k v props)) = filter P (map fst props).
Proof.
  intros HP. induction props as [|[k0 v0] props IH]; simpl.
  - rewrite HP. reflexivity.
  - destruct (arrayIndex k0) as [j|]; [destruct (N.ltb j i)|]; simpl;
      rewrite ?IH, ?HP; reflexivity.
Qed.

Lemma digits_no_slash (k : jsstring) :
  forallb isDigit k = true -> existsb (N.eqb slash) k = false.
Proof.
  induction k as [|c k IH]; [reflexivity|].
  cbn [forallb existsb]. intros H.
  apply andb_true_iff in H as [Hc Hk]. rewrite (IH Hk), orb_false_r.
  unfold isDigit in Hc. apply andb_true_iff in Hc as [Hlo _].
  apply N.leb_le in Hlo. apply N.eqb_neq. unfold slash. lia.
Qed.

(** A key with a slash is neither an array index nor [__proto__]. *)
Lemma slash_key_ordinary (k : jsstring) :
  slashOnOneLine k = true ->
  arrayIndex k = None /\ jsstring_eqb k (str "__proto__") = false.
Proof.
  unfold slashOnOneLine; intros H. apply andb_true_iff in H as [Hslash _].
  split.
  - unfold arrayIndex. destruct k as [|c rest]; [reflexivity|].
    destruct (forallb isDigit (c :: rest)) eqn:Hd; [|reflexivity].
    apply digits_no_slash in Hd. congruence.
  - destruct (jsstring_eqb k (str "__proto__")) eqn:E; [|reflexivity].
    apply jsstring_eqb_eq in E; subst k. discriminate.
Qed.

Lemma setOrdinary_other_key (props : list (jsstring * value))
    (k k' : jsstring) (v : value) :
  k' <> k ->
  hasKey k' (setOrdinary props (k, v)) = hasKey k' props.
Proof.
  intros Hne. apply eq_true_iff_eq. rewrite !hasKey_In.
  unfold setOrdinary. destruct (hasKey k props).
  - rewrite keys_replaceValue. reflexivity.
  - destruct (jsstring_eqb k (str "__proto__")); [reflexivity|].
    destruct (arrayIndex k) as [i|].
    + rewrite In_insertIndex. intuition congruence.
    + rewrite map_app, in_app_iff. simpl. intuition congruence.
Qed.

Lemma setOrdinary_slash_keys (props : list (jsstring * value))
    (k : jsstring) (v : value) :
  filter slashOnOneLine (map fst (setOrdinary props (k, v)))
  = filter slashOnOneLine (map fst props)
    ++ (if slashOnOneLine k && negb (hasKey k props) then [k] else []).
Proof.
  unfold setOrdinary. destruct (hasKey k props).
  - rewrite keys_replaceValue, andb_false_r, app_nil_r. reflexivity.
  - rewrite andb_true_r. destruct (slashOnOneLine k) eqn:Hk.
    + destruct (slash_key_ordinary _ Hk) as [-> ->].
      rewrite map_app, filter_app. simpl. rewrite Hk. reflexivity.
    + rewrite app_nil_r.
      destruct (jsstring_eqb k (str "__proto__")); [reflexivity|].
      destruct (arrayIndex k) as [i|].
      * apply filter_insertIndex; assumption.
      * rewrite map_app, filter_app. simpl. rewrite Hk, app_nil_r.
        reflexivity.
Qed.

(** The keys with a slash of the merged object: those of the target, in
    their order, then those of the source that the target does not
    have. *)
Lemma assignOrdinary_slash_keys (target source : list (jsstring * value)) :
  NoDup (map fst source) ->
  filter slashOnOneLine (map fst (assignOrdinary target source))
  = filter slashOnOneLine (map fst target)
    ++ filter (fun k => slashOnOneLine k && negb (hasKey k target))
              (map fst source).
Proof.
  unfold assignOrdinary. revert target.
  induction source as [|[k v] source IH]; intros target Hnd;
    cbn [fold_left map fst filter].
  - rewrite app_nil_r. reflexivity.
  - inv Hnd. rewrite IH by assumption.
    rewrite setOrdinary_slash_keys, <- app_assoc. f_equal.
    assert (Hrest : filter (fun k' =>
                              slashOnOneLine k'
                              && negb (hasKey k' (setOrdinary target (k, v))))
                           (map fst source)
                    = filter (fun k' =>
                                slashOnOneLine k' && negb (hasKey k' target))
                             (map fst source)).
    { apply filter_ext_in. intros k' Hin.
      rewrite setOrdinary_other_key; [reflexivity|].
      intros ->. contradiction. }
    rewrite Hrest.
    destruct (slashOnOneLine k && negb (hasKey k target)); reflexivity.
Qed.

(** ** [packagesGenerator.postProcess] *)

Section ManifestProperties.

Variable JSON_parse : jsstring -> option value.
Variable Object_assign : value -> value -> Result value.

(** A blank output gives no suggestion and logs nothing: it is not
    parsed.  For any other output, an exception of the [try] block is
    logged and the result is empty: the [SyntaxError] of a text that
    [JSON.parse] rejects, the [TypeError] of the manifest [null]. *)
Theorem packagesGenerator_errors :
  (forall out,
      trim out = [] ->
      packagesGenerator_postProcess JSON_parse Object_assign out = ([], []))
  /\ (forall out e,
        trim out <> [] ->
        packagesGenerator_tryBlock JSON_parse Object_assign out = Throw e ->
        packagesGenerator_postProcess JSON_parse Object_assign out
        = ([e], []))
  /\ (forall out,
        trim out <> [] ->
        JSON_parse out = None ->
        packagesGenerator_postProcess JSON_parse Object_assign out
        = ([SyntaxError], []))
  /\ (forall out,
        trim out <> [] ->
        JSON_parse out = Some VNull ->
        packagesGenerator_postProcess JSON_parse Object_assign out
        = ([TypeError], [])).
Proof.
  assert (Hthrow : forall out e,
             trim out <> [] ->
             packagesGenerator_tryBlock JSON_parse Object_assign out
             = Throw e ->
             packagesGenerator_postProcess JSON_parse Object_assign out
             = ([e], [])).
  { intros out e Hblank H. unfold packagesGenerator_postProcess.
    destruct (trim out); [congruence|]. simpl. rewrite H. reflexivity. }
  repeat split.
  - intros out H. unfold packagesGenerator_postProcess. rewrite H.
    reflexivity.
  - exact Hthrow.
  - intros out Hblank H. apply Hthrow; [assumption|].
    unfold packagesGenerator_tryBlock, callJSON_parse. rewrite H.
    reflexivity.
  - intros out Hblank H. apply Hthrow; [assumption|].
    unfold packagesGenerator_tryBlock, callJSON_parse. rewrite H.
    reflexivity.
Qed.

Lemma packagesGenerator_tryBlock_plain (out : jsstring) (content : value)
    (dependencies : list (jsstring * value)) :
  AssignsOrdinary Object_assign ->
  JSON_parse out = Some content ->
  nullish content = false ->
  orEmptyObject (property content (str "require")) = VObject dependencies ->
  packagesGenerator_tryBlock JSON_parse Object_assign out
  = Ok (map packageSuggestion
          (filter slashOnOneLine
             (map fst
                (assignOrdinary dependencies
                   (ownProperties
                      (orEmptyObject
                         (property content (str "require-dev")))))))).
Proof.
  intros Hassign Hparse Hcontent Hdeps.
  unfold packagesGenerator_tryBlock, callJSON_parse.
  rewrite Hparse; cbn [bind].
  rewrite !get_property, Hcontent; cbn [bind].
  rewrite Hdeps, Hassign; cbn [bind].
  unfold filterRealDependencies; cbn [Object_keys ownProperties bind].
  do 2 f_equal. apply filter_ext. intros k.
  apply wholeMatch_PACKAGE_REGEXP.
Qed.

(** For a manifest whose [require] is a plain object, or is missing or
    falsy, the suggestions are the keys of [require] that have a slash
    (and no line terminator), in their order, followed by the keys of
    [require-dev] with a slash that [require] does not have; each has the
    package icon and no description, and nothing is logged.  A package
    that both sections name is suggested once. *)
Theorem packagesGenerator_merges (out : jsstring) (content : value)
    (dependencies : list (jsstring * value)) :
  AssignsOrdinary Object_assign ->
  trim out <> [] ->
  JSON_parse out = Some content ->
  nullish content = false ->
  orEmptyObject (property content (str "require")) = VObject dependencies ->
  NoDup (map fst (ownProperties
                    (orEmptyObject (property content (str "require-dev")))))
  ->
  packagesGenerator_postProcess JSON_parse Object_assign out
  = ([],
     map packageSuggestion
       (filter slashOnOneLine (map fst dependencies)
        ++ filter (fun k => slashOnOneLine k && negb (hasKey k dependencies))
             (map fst (ownProperties
                         (orEmptyObject
                            (property content (str "require-dev"))))))).
Proof.
  intros Hassign Hblank Hparse Hcontent Hdeps Hnd.
  unfold packagesGenerator_postProcess.
  destruct (trim out); [congruence|]. cbn [length Nat.eqb].
  rewrite (packagesGenerator_tryBlock_plain _ _ _ Hassign Hparse Hcontent
             Hdeps).
  rewrite assignOrdinary_slash_keys by assumption. reflexivity.
Qed.

(** For a manifest that is not [null] and has neither a truthy [require]
    nor a truthy [require-dev], there is no suggestion and nothing is
    logged. *)
Theorem packagesGenerator_no_sections (out : jsstring) (content : value) :
  AssignsOrdinary Object_assign ->
  JSON_parse out = Some content ->
  nullish content = false ->
  ToBoolean (property content (str "require")) = false ->
  ToBoolean (property content (str "require-dev")) = false ->
  packagesGenerator_postProcess JSON_parse Object_assign out = ([], []).
Proof.
  intros Hassign Hparse Hcontent Hreq Hdev.
  unfold packagesGenerator_postProcess.
  destruct (Nat.eqb (length (trim out)) 0); [reflexivity|].
  rewrite (packagesGenerator_tryBlock_plain _ _ [] Hassign Hparse Hcontent).
  - unfold orEmptyObject. rewrite Hdev. reflexivity.
  - unfold orEmptyObject. rewrite Hreq. reflexivity.
Qed.

(** Under the same conditions, when the keys of [require] are distinct,
    every suggested name has a slash and no name is suggested twice. *)
Theorem packagesGenerator_names (out : jsstring) (content : value)
    (dependencies : list (jsstring * value)) :
  AssignsOrdinary Object_assign ->
  trim out <> [] ->
  JSON_parse out = Some content ->
  nullish content = false ->
  orEmptyObject (property content (str "require")) = VObject dependencies ->
  NoDup (map fst dependencies) ->
  NoDup (map fst (ownProperties
                    (orEmptyObject (property content (str "require-dev")))))
  ->
  exists names,
    map Fig.Suggestion.name
        (snd (packagesGenerator_postProcess JSON_parse Object_assign out))
    = map VString names
    /\ NoDup names
    /\ Forall (fun name => In slash name) names.
Proof.
  intros Hassign Hblank Hparse Hcontent Hdeps Hnd Hnd'.
  rewrite (packagesGenerator_merges _ _ _ Hassign Hblank Hparse Hcontent
             Hdeps Hnd').
  eexists; split; [cbn [snd]; rewrite map_map; reflexivity|]. split.
  - apply NoDup_app.
    + apply NoDup_filter; assumption.
    + apply NoDup_filter; assumption.
    + intros k Hk Hk'. apply filter_In in Hk as [Hk _].
      apply filter_In in Hk' as [_ Hk'].
      apply andb_true_iff in Hk' as [_ Hk']. apply negb_true_iff in Hk'.
      apply hasKey_In in Hk. congruence.
  - apply Forall_app; split; apply Forall_forall; intros k Hk;
      apply filter_In in Hk as [_ Hk].
    + apply slashOnOneLine_split in Hk as (a & b & -> & _).
      apply in_elt.
    + apply andb_true_iff in Hk as [Hk _].
      apply slashOnOneLine_split in Hk as (a & b & -> & _).
      apply in_elt.
Qed.

End ManifestProperties.

(** ** The arguments and options of a well-formed command *)

Lemma lookup_entry {T} (f : T -> value) (l : list (jsstring * T))
    (k : jsstring) (t : T) :
  NoDup (map fst l) -> In (k, t) l ->
  lookup k (map (fun kv => (fst kv, f (snd kv))) l) = Some (f t).
Proof.
  induction l as [|[k' t'] l IH]; simpl; intros Hnd Hin; [contradiction|].
  inv Hnd. destruct Hin as [Heq | Hin].
  - inv Heq. rewrite jsstring_eqb_refl. reflexivity.
  - destruct (jsstring_eqb k k') eqn:E; [|auto].
    apply jsstring_eqb_eq in E; subst k'.
    elim H1. apply (in_map fst) in Hin. exact Hin.
Qed.

Lemma Forall2_nth_error_left {A B} (P : A -> B -> Prop) (l : list A)
    (l' : list B) (i : nat) (x : A) :
  Forall2 P l l' -> nth_error l i = Some x ->
  exists y, nth_error l' i = Some y /\ P x y.
Proof.
  intros H; revert i; induction H as [|x0 y0 l l' H0 _ IH]; intros i Hi.
  - destruct i; discriminate.
  - destruct i as [|i]; simpl in *.
    + inv Hi. eauto.
    + apply IH; assumption.
Qed.

(** In a well-formed command whose argument keys are distinct, the
    argument at position [i] of [definition.arguments] has its
    Argument-Spec at position [i] of the subcommand's arguments: named and
    described as the argument, optional exactly when the argument is not
    required, variadic exactly when it is an array. *)
Theorem wellformed_argument_emitted (c : ComposerCommand.t) (i : nat)
    (k : jsstring) (a : ComposerArgument.t) :
  NoDup (map fst (ComposerCommandDefinition.arguments
                    (ComposerCommand.definition c))) ->
  nth_error (ComposerCommandDefinition.arguments
               (ComposerCommand.definition c)) i = Some (k, a) ->
  exists sub args spec,
    subcommandOfCommand (ComposerCommand.toValue c) = Ok sub
    /\ Fig.Subcommand.args sub = Multiple args
    /\ nth_error args i = Some spec
    /\ EmittedArg (ComposerCommand.toValue c) (ComposerArgument.toValue a)
                  spec
    /\ Fig.Arg.name spec = VString (ComposerArgument.name a)
    /\ Fig.Arg.description spec = VString (ComposerArgument.description a)
    /\ Fig.Arg.isOptional spec
       = VBool (negb (ComposerArgument.is_required a))
    /\ Fig.Arg.isVariadic spec = VBool (ComposerArgument.is_array a).
Proof.
  intros Hnd Hi.
  destruct (subcommandOfCommand_wellformed c) as (sub & Hsub & _).
  pose proof (subcommandOfCommand_Ok _ _ Hsub) as Hshape. cbv zeta in Hshape.
  destruct Hshape as (_ & _ & _ & _ & args & Hargs & _ & Heq).
  set (l := ComposerCommandDefinition.arguments
              (ComposerCommand.definition c)) in *.
  set (arguments :=
         VObject (map (fun kv => (fst kv, ComposerArgument.toValue (snd kv)))
                      l)).
  change (property (property (ComposerCommand.toValue c) (str "definition"))
                   (str "arguments")) with arguments in Hargs.
  unfold arguments in Hargs at 1. cbn [ownProperties] in Hargs.
  rewrite keys_entries in Hargs. apply mapM_Forall2 in Hargs.
  assert (Hk : nth_error (map fst l) i = Some k)
    by (rewrite nth_error_map, Hi; reflexivity).
  destruct (Forall2_nth_error_left _ _ _ _ _ Hargs Hk) as (spec & Hspec & _).
  assert (Hget : get arguments k = Ok (ComposerArgument.toValue a)).
  { unfold arguments, get, ownProperties.
    rewrite (lookup_entry ComposerArgument.toValue l k a Hnd
               (nth_error_In _ _ Hi)).
    reflexivity. }
  assert (Hemit : EmittedArg (ComposerCommand.toValue c)
                    (ComposerArgument.toValue a) spec).
  { apply emitted_arg
      with (subcommand := sub)
           (definition := ComposerCommandDefinition.toValue
                            (ComposerCommand.definition c))
           (arguments := arguments) (argKeys := map fst l) (args := args)
           (i := i) (argKey := k); try assumption; try reflexivity.
    - unfold arguments. cbn [Object_keys ownProperties].
      rewrite keys_entries. reflexivity.
    - rewrite Heq. reflexivity. }
  exists sub, args, spec.
  split; [assumption|]. split; [rewrite Heq; reflexivity|].
  split; [assumption|]. split; [assumption|].
  apply EmittedArg_argSpec in Hemit.
  rewrite argSpec_not_nullish in Hemit by reflexivity.
  injection Hemit as <-. repeat split.
Qed.

(** In a well-formed command whose option keys are distinct, the option
    at position [i] of [definition.options] has its Option-Spec at
    position [i] of the subcommand's options: its aliases are the option's
    name, followed by the shortcut when that is not blank; it is required
    exactly when the option's value is required; and it has the empty
    argument placeholder exactly when the option accepts a value. *)
Theorem wellformed_option_emitted (c : ComposerCommand.t) (i : nat)
    (k : jsstring) (o : ComposerOption.t) :
  NoDup (map fst (ComposerCommandDefinition.options
                    (ComposerCommand.definition c))) ->
  nth_error (ComposerCommandDefinition.options
               (ComposerCommand.definition c)) i = Some (k, o) ->
  exists sub spec,
    subcommandOfCommand (ComposerCommand.toValue c) = Ok sub
    /\ nth_error (Fig.Subcommand.options sub) i = Some spec
    /\ EmittedOption (ComposerCommand.toValue c) (ComposerOption.toValue o)
                     spec
    /\ Fig.Option.name spec
       = VArray (VString (ComposerOption.name o)
                 :: if Nat.eqb (length (trim (ComposerOption.shortcut o))) 0
                    then []
                    else [VString (ComposerOption.shortcut o)])
    /\ Fig.Option.description spec
       = VString (ComposerOption.description o)
    /\ Fig.Option.isRequired spec
       = VBool (ComposerOption.is_value_required o)
    /\ Fig.Option.args spec
       = (if ComposerOption.accept_value o then Some Fig.Arg.empty else None).
Proof.
  intros Hnd Hi.
  destruct (subcommandOfCommand_wellformed c) as (sub & Hsub & _).
  pose proof (subcommandOfCommand_Ok _ _ Hsub) as Hshape. cbv zeta in Hshape.
  destruct Hshape as (_ & _ & _ & _ & args & _ & Hopts & _).
  set (l := ComposerCommandDefinition.options
              (ComposerCommand.definition c)) in *.
  set (options :=
         VObject (map (fun kv => (fst kv, ComposerOption.toValue (snd kv)))
                      l)).
  change (property (property (ComposerCommand.toValue c) (str "definition"))
                   (str "options")) with options in Hopts.
  unfold options in Hopts at 1. cbn [ownProperties] in Hopts.
  rewrite keys_entries in Hopts. apply mapM_Forall2 in Hopts.
  assert (Hk : nth_error (map fst l) i = Some k)
    by (rewrite nth_error_map, Hi; reflexivity).
  destruct (Forall2_nth_error_left _ _ _ _ _ Hopts Hk) as (spec & Hspec & _).
  assert (Hget : get options k = Ok (ComposerOption.toValue o)).
  { unfold options, get, ownProperties.
    rewrite (lookup_entry ComposerOption.toValue l k o Hnd
               (nth_error_In _ _ Hi)).
    reflexivity. }
  assert (Hemit : EmittedOption (ComposerCommand.toValue c)
                    (ComposerOption.toValue o) spec).
  { apply emitted_option
      with (subcommand := sub)
           (definition := ComposerCommandDefinition.toValue
                            (ComposerCommand.definition c))
           (options := options) (optionKeys := map fst l)
           (i := i) (optionKey := k); try assumption; try reflexivity.
    unfold options. cbn [Object_keys ownProperties].
    rewrite keys_entries. reflexivity. }
  exists sub, spec.
  split; [assumption|]. split; [assumption|]. split; [assumption|].
  apply EmittedOption_optionSpec in Hemit.
  rewrite (optionSpec_string_shortcut _ (ComposerOption.shortcut o))
    in Hemit by reflexivity.
  injection Hemit as <-.
  cbn [Fig.Option.name Fig.Option.description Fig.Option.isRequired
       Fig.Option.args].
  repeat split.
  change (property (ComposerOption.toValue o) (str "name"))
    with (VString (ComposerOption.name o)).
  destruct (trim (ComposerOption.shortcut o)); reflexivity.
Qed.

(** ** The further properties on the examples *)

Lemma exampleSubcommand_built :
  subcommandOfCommand (ComposerCommand.toValue exampleCommand)
  = Ok exampleSubcommand.
Proof. reflexivity. Qed.

Lemma exampleObject_assign_ordinary : AssignsOrdinary exampleObject_assign.
Proof. intros target source. reflexivity. Qed.

Ltac distinct_keys := repeat constructor; cbv; intuition discriminate.

Lemma argument_fields_witness :
  Fig.Arg.isOptional exampleBranchSpec
  = VBool (negb (ToBoolean (property (ComposerArgument.toValue exampleBranch)
                                     (str "is_required")))).
Proof.
  destruct (argument_fields _ _ _ exampleBranch_emitted)
    as (_ & _ & Hoptional & _).
  exact Hoptional.
Defined.

Lemma option_fields_witness :
  Fig.Option.args exampleSortSpec = Some Fig.Arg.empty.
Proof.
  destruct (option_fields _ _ _ exampleSort_emitted) as (_ & Hargs & _).
  apply Hargs. reflexivity.
Defined.

Lemma subcommand_shape_witness :
  Fig.Subcommand.icon exampleSubcommand = VString composerIcon
  /\ length (Fig.Subcommand.options exampleSubcommand) = 3%nat.
Proof.
  destruct (subcommand_shape _ _ exampleSubcommand_built)
    as (_ & _ & Hicon & _ & Hoptions).
  split; [exact Hicon | exact Hoptions].
Defined.

Lemma subcommandOfCommand_returns_iff_witness :
  subcommandOfCommand VNull = Throw TypeError
  /\ nullish (property (property (ComposerCommand.toValue exampleCommand)
                                 (str "definition")) (str "options"))
     = false.
Proof.
  split.
  - apply (proj2 (subcommandOfCommand_returns_iff VNull)).
    intros sub; discriminate.
  - destruct (proj1 (proj1 (subcommandOfCommand_returns_iff
                              (ComposerCommand.toValue exampleCommand)))
                (ex_intro _ exampleSubcommand exampleSubcommand_built))
      as (_ & _ & _ & Hoptions & _).
    exact Hoptions.
Defined.

Lemma generateSpec_outcomes_witness :
  generateSpec exampleJSON_parse [] exampleFailingShell = Throw HostError.
Proof.
  apply (proj1 (generateSpec_outcomes exampleJSON_parse []
                  exampleFailingShell)).
  reflexivity.
Defined.

Lemma recipes_in_tree_witness :
  In recipesSubcommand
     [exampleSubcommand; recipesSubcommand; recipesInstallSubcommand].
Proof.
  apply (proj1 (recipes_in_tree exampleJSON_parse []
                  (exampleShell exampleCatalogText
                     (str "symfony.lock: ASCII text"))
                  exampleCatalogText (str "symfony.lock: ASCII text") []
                  {| Fig.Spec.name := lit "composer";
                     Fig.Spec.subcommands :=
                       [exampleSubcommand; recipesSubcommand;
                        recipesInstallSubcommand] |}
                  eq_refl eq_refl eq_refl)).
  split; reflexivity.
Defined.

Lemma searchGenerator_script_term_witness :
  searchGenerator_script [str "composer"; str "require"; str "mono"]
  = str "curl -s -H " ++ quote ++ str "Accept: application/json"
    ++ quote ++ str " " ++ quote
    ++ str "https://packagist.org/search.json?q="
    ++ str "mono" ++ str "&per_page=20" ++ quote.
Proof.
  destruct (searchGenerator_script_term
              [str "composer"; str "require"; str "mono"])
    as (_ & Hterm & _).
  apply Hterm; [reflexivity | discriminate].
Defined.

Lemma searchGenerator_suggestions_witness :
  searchGenerator_postProcess exampleManifest_parse exampleSearchText
  = [ Fig.Suggestion.mk (lit "monolog/monolog") (lit "Logging")
        (VString packageIcon) ].
Proof.
  apply (searchGenerator_suggestions exampleManifest_parse exampleSearchText
           _ [ VObject [ (str "name", lit "monolog/monolog");
                         (str "description", lit "Logging") ] ]
           eq_refl eq_refl).
  repeat constructor.
Defined.

Lemma packagesGenerator_errors_witness :
  packagesGenerator_postProcess exampleManifest_parse exampleObject_assign
    (str "  ")
  = ([], [])
  /\ packagesGenerator_postProcess exampleManifest_parse exampleObject_assign
       (str "not json")
     = ([SyntaxError], []).
Proof.
  destruct (packagesGenerator_errors exampleManifest_parse
              exampleObject_assign) as (Hblank & _ & Hparse & _).
  split; [apply Hblank; reflexivity|].
  apply Hparse; [discriminate | reflexivity].
Defined.

Lemma packagesGenerator_merges_witness :
  packagesGenerator_postProcess exampleManifest_parse exampleObject_assign
    exampleManifestText
  = ([], map packageSuggestion
           [str "symfony/console"; str "monolog/monolog";
            str "phpunit/phpunit"]).
Proof.
  apply (packagesGenerator_merges exampleManifest_parse exampleObject_assign
           exampleManifestText exampleManifest
           [ (str "php", lit ">=8.1");
             (str "symfony/console", lit "^6.0");
             (str "monolog/monolog", lit "^3.0") ]
           exampleObject_assign_ordinary).
  - discriminate.
  - reflexivity.
  - reflexivity.
  - reflexivity.
  - distinct_keys.
Defined.

Lemma packagesGenerator_no_sections_witness :
  packagesGenerator_postProcess exampleManifest_parse exampleObject_assign
    exampleSearchText
  = ([], []).
Proof.
  apply (packagesGenerator_no_sections exampleManifest_parse
           exampleObject_assign exampleSearchText _
           exampleObject_assign_ordinary eq_refl);
    reflexivity.
Defined.

Lemma packagesGenerator_names_witness :
  exists names,
    map Fig.Suggestion.name
        (snd (packagesGenerator_postProcess exampleManifest_parse
                exampleObject_assign exampleManifestText))
    = map VString names
    /\ NoDup names
    /\ Forall (fun name => In slash name) names.
Proof.
  apply (packagesGenerator_names exampleManifest_parse exampleObject_assign
           exampleManifestText exampleManifest
           [ (str "php", lit ">=8.1");
             (str "symfony/console", lit "^6.0");
             (str "monolog/monolog", lit "^3.0") ]
           exampleObject_assign_ordinary).
  - discriminate.
  - reflexivity.
  - reflexivity.
  - reflexivity.
  - distinct_keys.
  - distinct_keys.
Defined.

Lemma wellformed_argument_emitted_witness :
  exists spec,
    EmittedArg (ComposerCommand.toValue exampleCommand)
               (ComposerArgument.toValue exampleBranch) spec
    /\ Fig.Arg.name spec = VString (str "branch").
Proof.
  destruct (wellformed_argument_emitted exampleCommand 1 (str "branch")
              exampleBranch) as (sub & args & spec & _ & _ & _ & H & Hn & _).
  - distinct_keys.
  - reflexivity.
  - exists spec; split; [exact H | exact Hn].
Defined.

Lemma wellformed_option_emitted_witness :
  exists spec,
    EmittedOption (ComposerCommand.toValue exampleCommand)
                  (ComposerOption.toValue exampleSort) spec
    /\ Fig.Option.isRequired spec = VBool true.
Proof.
  destruct (wellformed_option_emitted exampleCommand 2 (str "sort")
              exampleSort) as (sub & spec & _ & _ & H & _ & _ & Hr & _).
  - distinct_keys.
  - reflexivity.
  - exists spec; split; [exact H | exact Hr].
Defined.

(** * The catalog and the search results, for every input *)

(** ** Well-formed catalogs *)

Lemma subcommandOfCommand_wellFormed (command : value) :
  wellFormedCommand command = true ->
  exists sub,
    subcommandOfCommand command = Ok sub
    /\ Fig.Subcommand.name sub = property command (str "name").
Proof.
  unfold wellFormedCommand; cbv zeta; intros H.
  repeat (apply andb_true_iff in H as [H ?]).
  repeat match goal with
         | H : negb _ = true |- _ => apply negb_true_iff in H
         end.
  rename H into Hc.
  match goal with
  | Hd : nullish (property command _) = false,
    Ha : nullish (property _ (str "arguments")) = false,
    Ho : nullish (property _ (str "options")) = false,
    Hargs : forallb _ (map fst (ownProperties (property _ (str "arguments"))))
            = true,
    Hopts : forallb _ (map fst (ownProperties (property _ (str "options"))))
            = true |- _ =>
      rewrite forallb_forall in Hargs, Hopts;
      destruct (mapM_total (argOfKey command)
                  (map fst (ownProperties
                              (property (property command (str "definition"))
                                        (str "arguments")))))
        as [args Eargs];
      [ intros k Hk; rewrite argOfKey_property by assumption;
        rewrite argSpec_not_nullish;
        [ eauto | apply negb_true_iff; auto | assumption ]
      | destruct (mapM_total (optionOfKey command)
                    (map fst (ownProperties
                                (property
                                   (property command (str "definition"))
                                   (str "options")))))
          as [opts Eopts];
        [ intros k Hk; rewrite optionOfKey_property by assumption;
          specialize (Hopts k Hk); unfold wellFormedOption in Hopts;
          apply andb_true_iff in Hopts as [Hk' Hs];
          apply negb_true_iff in Hk';
          destruct (property
                      (property
                         (property (property command (str "definition"))
                                   (str "options")) k) (str "shortcut"))
            as [| | | |s| |] eqn:Es; try discriminate;
          rewrite (optionSpec_string_shortcut _ s Hk' Es); eauto
        | unfold subcommandOfCommand;
          rewrite !(get_property command), Hc; cbn [bind];
          rewrite !(get_property (property command (str "definition"))), Hd;
          cbn [bind];
          rewrite (Object_keys_not_nullish _ Ha); cbn [bind];
          rewrite Eargs; cbn [bind];
          rewrite (Object_keys_not_nullish _ Ho); cbn [bind];
          rewrite Eopts; cbn [bind];
          eexists; split; reflexivity ] ]
  end.
Qed.

Lemma wellFormed_commands_built (commands : list value) :
  forallb wellFormedCommand commands = true ->
  exists built,
    Forall2 (fun c s =>
               subcommandOfCommand c = Ok s
               /\ Fig.Subcommand.name s = property c (str "name"))
            commands built.
Proof.
  induction commands as [|c commands IH]; simpl; intros H.
  - exists []; constructor.
  - apply andb_true_iff in H as [Hc Hrest].
    destruct (subcommandOfCommand_wellFormed c Hc) as (s & Hs & Hn).
    destruct (IH Hrest) as [built Hbuilt].
    exists (s :: built); constructor; auto.
Qed.

(** The catalogs of the interfaces are well-formed. *)
Lemma toValue_wellFormed (catalog : ComposerListOutput.t) :
  wellFormedCatalog (ComposerListOutput.toValue catalog) = true
  /\ catalogCommands (ComposerListOutput.toValue catalog)
     = map ComposerCommand.toValue (ComposerListOutput.commands catalog).
Proof.
  split; [|reflexivity].
  unfold wellFormedCatalog.
  change (catalogCommands (ComposerListOutput.toValue catalog))
    with (map ComposerCommand.toValue (ComposerListOutput.commands catalog)).
  change (property (ComposerListOutput.toValue catalog) (str "commands"))
    with (VArray (map ComposerCommand.toValue
                      (ComposerListOutput.commands catalog))).
  cbn [nullish negb Array_isArray ComposerListOutput.toValue andb].
  rewrite forallb_forall. intros v Hv.
  apply in_map_iff in Hv as (c & <- & _).
  unfold wellFormedCommand; cbv zeta.
  set (d := ComposerCommand.definition c).
  change (property (ComposerCommand.toValue c) (str "definition"))
    with (ComposerCommandDefinition.toValue d).
  change (property (ComposerCommandDefinition.toValue d) (str "arguments"))
    with (VObject (map (fun kv => (fst kv, ComposerArgument.toValue (snd kv)))
                       (ComposerCommandDefinition.arguments d))).
  change (property (ComposerCommandDefinition.toValue d) (str "options"))
    with (VObject (map (fun kv => (fst kv, ComposerOption.toValue (snd kv)))
                       (ComposerCommandDefinition.options d))).
  cbn [nullish negb andb ComposerCommand.toValue
       ComposerCommandDefinition.toValue ownProperties].
  rewrite !keys_entries. apply andb_true_iff; split.
  - apply forallb_forall; intros k Hk. unfold property, ownProperties.
    destruct (lookup_entries ComposerArgument.toValue _ _ Hk) as [a ->].
    reflexivity.
  - apply forallb_forall; intros k Hk.
    assert (E : exists o,
               property
                 (VObject
                    (map (fun kv => (fst kv, ComposerOption.toValue (snd kv)))
                         (ComposerCommandDefinition.options d))) k
               = ComposerOption.toValue o).
    { unfold property, ownProperties.
      destruct (lookup_entries ComposerOption.toValue _ _ Hk) as [o ->].
      eauto. }
    destruct E as [o ->]. reflexivity.
Qed.

(** ** The suggestions of the search results *)

Lemma searchSuggestion_cases (item : value) :
  searchSuggestion item
  = if nullish item
    then Throw TypeError
    else Ok (Fig.Suggestion.mk (property item (str "name"))
                               (property item (str "description"))
                               (VString packageIcon)).
Proof.
  unfold searchSuggestion. rewrite !get_property.
  destruct (nullish item); reflexivity.
Qed.

Lemma mapM_searchSuggestion_returns (items : list value) :
  Forall (fun item => nullish item = false) items ->
  mapM searchSuggestion items
  = Ok (map (fun item =>
               Fig.Suggestion.mk (property item (str "name"))
                                 (property item (str "description"))
                                 (VString packageIcon)) items).
Proof.
  induction 1 as [|item items Hitem _ IH]; [reflexivity|].
  cbn [mapM map]. rewrite searchSuggestion_cases, Hitem. cbn [bind].
  rewrite IH. reflexivity.
Qed.

Lemma mapM_searchSuggestion_throws (items : list value) :
  Exists (fun item => nullish item = true) items ->
  mapM searchSuggestion items = Throw TypeError.
Proof.
  induction items as [|item items IH]; intros H; [inv H|].
  cbn [mapM]. rewrite searchSuggestion_cases.
  destruct (nullish item) eqn:Hitem; [reflexivity|]. cbn [bind].
  inv H; [congruence|]. rewrite IH by assumption. reflexivity.
Qed.

Lemma nullish_items (items : list value) :
  Forall (fun item => nullish item = false) items
  \/ Exists (fun item => nullish item = true) items.
Proof.
  induction items as [|item items [IH | IH]].
  - left; constructor.
  - destruct (nullish item) eqn:Hitem.
    + right; constructor; assumption.
    + left; constructor; assumption.
  - right; apply Exists_cons_tl; assumption.
Qed.

Section EveryInput.

Variable JSON_parse : jsstring -> option value.

(** C2: for every well-formed catalog of N commands, [generateSpec]
    returns, without logging, the N subcommands of the commands in
    catalog order, each under its command's name, followed by nothing
    when the output of [file symfony.lock] ends with
    ["(No such file or directory)"] and by the [recipes] and
    [recipes:install] subcommands, in that order, when it does not: N
    subcommands in the first case, N + 2 in the second. *)
Theorem generateSpec_subcommands (data : value) (tokens : list jsstring)
    (executeShellCommand : jsstring -> Result jsstring)
    (jsonList symfonyLock : jsstring) :
  executeShellCommand (str "composer list --format=json") = Ok jsonList ->
  executeShellCommand (str "file symfony.lock") = Ok symfonyLock ->
  JSON_parse jsonList = Some data ->
  wellFormedCatalog data = true ->
  exists fromCatalog tree,
    generateSpec JSON_parse tokens executeShellCommand = Ok ([], tree)
    /\ Forall2
         (fun c s =>
            subcommandOfCommand c = Ok s
            /\ Fig.Subcommand.name s = property c (str "name"))
         (catalogCommands data) fromCatalog
    /\ ((exists prefix, symfonyLock = prefix ++ noSuchFile) ->
        Fig.Spec.subcommands tree = fromCatalog
        /\ length (Fig.Spec.subcommands tree)
           = length (catalogCommands data))
    /\ (~ (exists prefix, symfonyLock = prefix ++ noSuchFile) ->
        Fig.Spec.subcommands tree
        = fromCatalog ++ [recipesSubcommand; recipesInstallSubcommand]
        /\ length (Fig.Spec.subcommands tree)
           = length (catalogCommands data) + 2).
Proof.
  intros Hlist Hlock Hparse Hwf.
  unfold wellFormedCatalog in Hwf.
  apply andb_true_iff in Hwf as [Hwf Hcommands].
  apply andb_true_iff in Hwf as [Hdata Harray].
  apply negb_true_iff in Hdata.
  destruct (wellFormed_commands_built _ Hcommands) as [fromCatalog Hall].
  assert (Hbuilt : Forall2 (fun c s => subcommandOfCommand c = Ok s)
                     (catalogCommands data) fromCatalog).
  { clear -Hall. induction Hall as [|c s l ss [Hs _] _ IH];
      constructor; assumption. }
  pose proof (Forall2_length Hall) as Hlen.
  exists fromCatalog.
  exists {| Fig.Spec.name := lit "composer";
            Fig.Spec.subcommands :=
              fromCatalog
              ++ (if endsWith symfonyLock noSuchFile
                  then []
                  else [recipesSubcommand; recipesInstallSubcommand]) |}.
  split; [|split; [exact Hall|]].
  - apply (generateSpec_unfold JSON_parse _ _ _ _ (Ok tt) _ Hlist Hlock).
    apply (tryBlock_returns JSON_parse jsonList symfonyLock data
             (property data (str "commands")) (catalogCommands data)
             fromCatalog Hparse).
    + rewrite get_property, Hdata. reflexivity.
    + unfold catalogCommands.
      destruct (property data (str "commands")); try discriminate.
      reflexivity.
    + exact Hbuilt.
  - cbn [Fig.Spec.subcommands]. rewrite <- endsWith_suffix.
    destruct (endsWith symfonyLock noSuchFile); split; intros H;
      try congruence.
    + rewrite app_nil_r. auto.
    + rewrite length_app. simpl. split; [reflexivity | lia].
Qed.

(** C8, as the code has it: with an empty last token in its context,
    [searchGenerator] gives the empty script, so that no query is issued;
    and its [postProcess] returns the empty array whenever its [try]
    block throws, which is exactly when [JSON.parse] rejects the output
    (as it does the empty output of a command that was not run), the
    parsed value is [null], its [results] is missing or not an array, or
    an item of [results] is [null].  An item of any other shape is read
    without an exception and gives a suggestion, with [undefined] for a
    field that the item does not have. *)
Theorem searchGenerator_empty_term_and_errors :
  (forall context,
      lastToken context = Some [] -> searchGenerator_script context = [])
  /\ (forall out e,
        searchGenerator_tryBlock JSON_parse out = Throw e ->
        searchGenerator_postProcess JSON_parse out = [])
  /\ (forall out,
        (exists e, searchGenerator_tryBlock JSON_parse out = Throw e)
        <-> JSON_parse out = None
            \/ exists parsed,
                 JSON_parse out = Some parsed
                 /\ (nullish parsed = true
                     \/ Array_isArray (property parsed (str "results"))
                        = false
                     \/ exists items,
                          property parsed (str "results") = VArray items
                          /\ Exists (fun item => nullish item = true)
                                    items))
  /\ (forall out parsed items,
        JSON_parse out = Some parsed ->
        nullish parsed = false ->
        property parsed (str "results") = VArray items ->
        Forall (fun item => nullish item = false) items ->
        searchGenerator_postProcess JSON_parse out
        = map (fun item =>
                 Fig.Suggestion.mk (property item (str "name"))
                                   (property item (str "description"))
                                   (VString packageIcon))
              items).
Proof.
  split; [|split; [|split]].
  - intros context H. unfold searchGenerator_script. rewrite H.
    reflexivity.
  - intros out e H. unfold searchGenerator_postProcess. rewrite H.
    reflexivity.
  - intros out. unfold searchGenerator_tryBlock, callJSON_parse.
    destruct (JSON_parse out) as [parsed|]; cbn [bind].
    2:{ split; [auto | eauto]. }
    rewrite get_property.
    destruct (nullish parsed) eqn:Hparsed; cbn [bind].
    { split; [intros _ | eauto]. right. exists parsed. auto. }
    destruct (property parsed (str "results")) as [| | | | |items|]
      eqn:Hresults; cbn [callMap].
    6:{ destruct (nullish_items items) as [Hall | Hsome].
        - rewrite (mapM_searchSuggestion_returns _ Hall). split.
          + intros [e H]; discriminate.
          + intros [H | (parsed' & Heq & Hcases)]; [discriminate|].
            inv Heq. destruct Hcases as [H | [H | (items' & Hi & H)]].
            * congruence.
            * rewrite Hresults in H. discriminate.
            * rewrite Hresults in Hi. inv Hi. exfalso. clear -Hall H.
              induction H as [item items H | item items _ IH]; inv Hall;
                [congruence | auto].
        - rewrite (mapM_searchSuggestion_throws _ Hsome). split; [|eauto].
          intros _. right. exists parsed. split; [reflexivity|].
          right; right. exists items; auto. }
    all: split; [intros _ | eauto];
      right; exists parsed; (split; [reflexivity|]); right; left;
      rewrite Hresults; reflexivity.
  - intros out parsed items Hparse Hparsed Hresults Hitems.
    unfold searchGenerator_postProcess, searchGenerator_tryBlock,
      callJSON_parse.
    rewrite Hparse; cbn [bind]. rewrite get_property, Hparsed; cbn [bind].
    rewrite Hresults; cbn [callMap].
    rewrite (mapM_searchSuggestion_returns _ Hitems). reflexivity.
Qed.

End EveryInput.

(** C8 as stated fails: an item of the wrong shape, the number 5, is no
    exception; [postProcess] returns a suggestion for it, without a name
    and without a description. *)
Lemma searchGenerator_wrong_shape_item :
  searchGenerator_postProcess exampleMinimal_parse exampleNumberItemText
  = [ Fig.Suggestion.mk VUndefined VUndefined (VString packageIcon) ]
  /\ searchGenerator_postProcess exampleMinimal_parse exampleNumberItemText
     <> [].
Proof. split; [reflexivity | discriminate]. Qed.

Lemma generateSpec_subcommands_witness :
  exists (fromCatalog : list Fig.Subcommand.t) tree,
    generateSpec exampleMinimal_parse []
      (exampleShell exampleMinimalText (str "symfony.lock: ASCII text"))
    = Ok ([], tree)
    /\ length fromCatalog = 1%nat
    /\ length (Fig.Spec.subcommands tree) = 3%nat.
Proof.
  destruct (generateSpec_subcommands exampleMinimal_parse exampleMinimal []
              (exampleShell exampleMinimalText
                 (str "symfony.lock: ASCII text"))
              exampleMinimalText (str "symfony.lock: ASCII text")
              eq_refl eq_refl eq_refl eq_refl)
    as (fromCatalog & tree & Hgen & Hall & _ & Hextras).
  exists fromCatalog, tree. split; [exact Hgen|].
  split; [symmetry; exact (Forall2_length Hall)|].
  apply Hextras. rewrite <- endsWith_suffix. discriminate.
Defined.

Lemma searchGenerator_empty_term_and_errors_witness :
  searchGenerator_script [str "composer"; str "require"; str ""] = []
  /\ searchGenerator_postProcess exampleJSON_parse (str "") = []
  /\ searchGenerator_postProcess exampleJSON_parse exampleErrorText = []
  /\ searchGenerator_postProcess exampleMinimal_parse exampleNumberItemText
     = [ Fig.Suggestion.mk VUndefined VUndefined (VString packageIcon) ].
Proof.
  destruct (searchGenerator_empty_term_and_errors exampleJSON_parse)
    as (Hscript & Hcatch & Hthrows & _).
  destruct (searchGenerator_empty_term_and_errors exampleMinimal_parse)
    as (_ & _ & _ & Hreturns).
  split; [apply Hscript; reflexivity|].
  split.
  { destruct (proj2 (Hthrows (str "")) (or_introl eq_refl)) as [e He].
    exact (Hcatch _ _ He). }
  split.
  { destruct (proj2 (Hthrows exampleErrorText)) as [e He].
    - right. exists (VObject [(str "error", lit "not found")]).
      split; [reflexivity|]. right; left. reflexivity.
    - exact (Hcatch _ _ He). }
  apply (Hreturns exampleNumberItemText
           (VObject [(str "results", VArray [VNumber 5])]) [VNumber 5]);
    try reflexivity.
  repeat constructor.
Defined.
